(** * PulsePlay: step detection, cadence estimation, track selection and
      playback control of [src/routes/+page.svelte]

    The page script keeps its state in module-level [let] variables and
    mutates them from event callbacks.  The embedding below threads one
    [State] record through every callback.  JavaScript numbers are IEEE 754
    binary64 values and are modelled by Rocq's primitive floats, so that
    [1 / 0] is [infinity] and [0.5 + 0.05 + ...] rounds as it does in the
    browser.  Values of [Date.now()] are integral millisecond counts far
    below 2^53; they are kept in [Z] and converted when the code divides.
    What the browser decides (clock readings, whether a decode or a
    [play()] succeeds, the answer to the permission prompt) is an argument
    of the callback that meets it. *)

From Stdlib Require Import ZArith Floats List Bool String Lia.
From Stdlib Require Uint63.
Import ListNotations.

Set Warnings "-inexact-float".

Local Open Scope float_scope.

(** ** JavaScript numbers *)

Module JS.

(** An integral number below 2^63 in magnitude as a binary64 value. *)
Definition ofZ (z : Z) : float :=
  if (z <? 0)%Z then - of_uint63 (Uint63.of_Z (- z))
  else of_uint63 (Uint63.of_Z z).

(** [a > b] on numbers; false as soon as one side is NaN. *)
Definition gt (a b : float) : bool := b <? a.

(** [a >= b] on numbers. *)
Definition ge (a b : float) : bool := b <=? a.

(** [Math.max(a, b)]: NaN if either is NaN, and +0 is larger than -0. *)
Definition Math_max (a b : float) : float :=
  match a ?= b with
  | FNotComparable => nan
  | FLt => b
  | FGt => a
  | FEq => if get_sign a then b else a
  end.

(** [Math.min(a, b)]: NaN if either is NaN, and -0 is smaller than +0. *)
Definition Math_min (a b : float) : float :=
  match a ?= b with
  | FNotComparable => nan
  | FLt => a
  | FGt => b
  | FEq => if get_sign a then a else b
  end.

Definition Math_abs (a : float) : float := abs a.

(** [Math.round(x)]: the integral number closest to [x], ties towards
    +infinity; NaN, the infinities, the zeros and integral values are
    returned unchanged, and a result of zero keeps the sign of [x]. *)
Definition Math_round (x : float) : float :=
  match Prim2SF x with
  | S754_finite sgn m e =>
      if (0 <=? e)%Z then x
      else
        let n := if sgn then Z.neg m else Z.pos m in
        let r := ((2 * n + 2 ^ (- e)) / 2 ^ (1 - e))%Z in
        if (r =? 0)%Z then (if sgn then neg_zero else zero) else ofZ r
  | _ => x
  end.

End JS.
Import JS.

(** ** Track catalog *)

Record MusicTrack := mkTrack {
  minBPM : float;
  maxBPM : float;
  name : string;
  artist : string;
  audioFile : string;
  originalBPM : float
}.

Definition musicTracks : list MusicTrack :=
  [ mkTrack 0 90 "Relaxing Ambient" "Soundscape" "/songs/relaxing-ambient.mp3" 75;
    mkTrack 90 110 "Chill Vibes" "Lo-Fi Beats" "/songs/chill-vibes.mp3" 95;
    mkTrack 110 130 "Walking Rhythm" "Indie Pop" "/songs/walking-rhythm.mp3" 120;
    mkTrack 130 150 "Energy Boost" "Pop Hits" "/songs/energy-boost.mp3" 140;
    mkTrack 150 200 "Power Walk" "Electronic Dance" "/songs/power-walk.mp3" 175 ].

(** The predicate handed to [Array.prototype.find] in [getMatchingTrack]. *)
Definition inRange (bpm : float) (track : MusicTrack) : bool :=
  ge bpm (minBPM track) && (bpm <? maxBPM track).

(** [musicTracks[0]]; the catalog is a non-empty constant. *)
Definition firstTrack : MusicTrack := hd (mkTrack 0 0 "" "" "" 0) musicTracks.

(** [musicTracks.find(...) || musicTracks[0]]: a found track is an object,
    hence truthy, so the right operand is taken exactly when nothing is
    found. *)
Definition getMatchingTrack (bpm : float) : MusicTrack :=
  match find (inRange bpm) musicTracks with
  | Some track => track
  | None => firstTrack
  end.

(** ** Audio engines *)

(** An [AudioBufferSourceNode] as the script uses it.  A node is created,
    connected and started in one uninterrupted block, so every node the
    state holds has been started; [srcPlaying] turns false at [stop()]. *)
Record BufferSource := mkSource {
  srcBuffer : string;
  srcLoop : bool;
  srcPlaybackRate : float;
  srcPlaying : bool
}.

(** An [HTMLAudioElement] as the script uses it. *)
Record AudioElement := mkElement {
  elSrc : string;
  elLoop : bool;
  elVolume : float;
  elPlaybackRate : float;
  elPaused : bool;
  elCurrentTime : float
}.

(** ** Page state: the module-level variables *)

Record State := mkState {
  permissionGranted : bool;
  isMonitoring : bool;
  steps : Z;
  lastStepTime : Z;
  isPlaying : bool;
  currentBPM : float;
  speed : float;
  permissionStatus : string;
  isDemoMode : bool;
  currentAudio : option AudioElement;
  audioContext : bool;
  audioSource : option BufferSource;
  gainNode : bool;
  isLoading : bool;
  (* the 3000 ms timeout armed by [startMonitoring] *)
  demoTimeout : bool;
  (* [demoValue] and [increasing], captured by the interval callback *)
  demoTimer : option (float * bool);
  (* the calls of [loadAndPlayAudio] that wait for their fetch and decode,
     each with the track it was given, oldest first *)
  loadsInFlight : list MusicTrack
}.

Definition initialState : State :=
  mkState false false 0 0 false 0 0 "Waiting for permission" false
          None false None false false false None [].

Definition set_permissionGranted v s :=
  mkState v (isMonitoring s) (steps s) (lastStepTime s) (isPlaying s)
    (currentBPM s) (speed s) (permissionStatus s) (isDemoMode s)
    (currentAudio s) (audioContext s) (audioSource s) (gainNode s)
    (isLoading s) (demoTimeout s) (demoTimer s)
    (loadsInFlight s).
Definition set_isMonitoring v s :=
  mkState (permissionGranted s) v (steps s) (lastStepTime s) (isPlaying s)
    (currentBPM s) (speed s) (permissionStatus s) (isDemoMode s)
    (currentAudio s) (audioContext s) (audioSource s) (gainNode s)
    (isLoading s) (demoTimeout s) (demoTimer s)
    (loadsInFlight s).
Definition set_steps v s :=
  mkState (permissionGranted s) (isMonitoring s) v (lastStepTime s)
    (isPlaying s) (currentBPM s) (speed s) (permissionStatus s)
    (isDemoMode s) (currentAudio s) (audioContext s) (audioSource s)
    (gainNode s) (isLoading s) (demoTimeout s) (demoTimer s)
    (loadsInFlight s).
Definition set_lastStepTime v s :=
  mkState (permissionGranted s) (isMonitoring s) (steps s) v (isPlaying s)
    (currentBPM s) (speed s) (permissionStatus s) (isDemoMode s)
    (currentAudio s) (audioContext s) (audioSource s) (gainNode s)
    (isLoading s) (demoTimeout s) (demoTimer s)
    (loadsInFlight s).
Definition set_isPlaying v s :=
  mkState (permissionGranted s) (isMonitoring s) (steps s) (lastStepTime s)
    v (currentBPM s) (speed s) (permissionStatus s) (isDemoMode s)
    (currentAudio s) (audioContext s) (audioSource s) (gainNode s)
    (isLoading s) (demoTimeout s) (demoTimer s)
    (loadsInFlight s).
Definition set_currentBPM v s :=
  mkState (permissionGranted s) (isMonitoring s) (steps s) (lastStepTime s)
    (isPlaying s) v (speed s) (permissionStatus s) (isDemoMode s)
    (currentAudio s) (audioContext s) (audioSource s) (gainNode s)
    (isLoading s) (demoTimeout s) (demoTimer s)
    (loadsInFlight s).
Definition set_speed v s :=
  mkState (permissionGranted s) (isMonitoring s) (steps s) (lastStepTime s)
    (isPlaying s) (currentBPM s) v (permissionStatus s) (isDemoMode s)
    (currentAudio s) (audioContext s) (audioSource s) (gainNode s)
    (isLoading s) (demoTimeout s) (demoTimer s)
    (loadsInFlight s).
Definition set_permissionStatus v s :=
  mkState (permissionGranted s) (isMonitoring s) (steps s) (lastStepTime s)
    (isPlaying s) (currentBPM s) (speed s) v (isDemoMode s)
    (currentAudio s) (audioContext s) (audioSource s) (gainNode s)
    (isLoading s) (demoTimeout s) (demoTimer s)
    (loadsInFlight s).
Definition set_isDemoMode v s :=
  mkState (permissionGranted s) (isMonitoring s) (steps s) (lastStepTime s)
    (isPlaying s) (currentBPM s) (speed s) (permissionStatus s) v
    (currentAudio s) (audioContext s) (audioSource s) (gainNode s)
    (isLoading s) (demoTimeout s) (demoTimer s)
    (loadsInFlight s).
Definition set_currentAudio v s :=
  mkState (permissionGranted s) (isMonitoring s) (steps s) (lastStepTime s)
    (isPlaying s) (currentBPM s) (speed s) (permissionStatus s)
    (isDemoMode s) v (audioContext s) (audioSource s) (gainNode s)
    (isLoading s) (demoTimeout s) (demoTimer s)
    (loadsInFlight s).
Definition set_audioContext v s :=
  mkState (permissionGranted s) (isMonitoring s) (steps s) (lastStepTime s)
    (isPlaying s) (currentBPM s) (speed s) (permissionStatus s)
    (isDemoMode s) (currentAudio s) v (audioSource s) (gainNode s)
    (isLoading s) (demoTimeout s) (demoTimer s)
    (loadsInFlight s).
Definition set_audioSource v s :=
  mkState (permissionGranted s) (isMonitoring s) (steps s) (lastStepTime s)
    (isPlaying s) (currentBPM s) (speed s) (permissionStatus s)
    (isDemoMode s) (currentAudio s) (audioContext s) v (gainNode s)
    (isLoading s) (demoTimeout s) (demoTimer s)
    (loadsInFlight s).
Definition set_gainNode v s :=
  mkState (permissionGranted s) (isMonitoring s) (steps s) (lastStepTime s)
    (isPlaying s) (currentBPM s) (speed s) (permissionStatus s)
    (isDemoMode s) (currentAudio s) (audioContext s) (audioSource s) v
    (isLoading s) (demoTimeout s) (demoTimer s)
    (loadsInFlight s).
Definition set_isLoading v s :=
  mkState (permissionGranted s) (isMonitoring s) (steps s) (lastStepTime s)
    (isPlaying s) (currentBPM s) (speed s) (permissionStatus s)
    (isDemoMode s) (currentAudio s) (audioContext s) (audioSource s)
    (gainNode s) v (demoTimeout s) (demoTimer s)
    (loadsInFlight s).
Definition set_demoTimeout v s :=
  mkState (permissionGranted s) (isMonitoring s) (steps s) (lastStepTime s)
    (isPlaying s) (currentBPM s) (speed s) (permissionStatus s)
    (isDemoMode s) (currentAudio s) (audioContext s) (audioSource s)
    (gainNode s) (isLoading s) v (demoTimer s) (loadsInFlight s).
Definition set_demoTimer v s :=
  mkState (permissionGranted s) (isMonitoring s) (steps s) (lastStepTime s)
    (isPlaying s) (currentBPM s) (speed s) (permissionStatus s)
    (isDemoMode s) (currentAudio s) (audioContext s) (audioSource s)
    (gainNode s) (isLoading s) (demoTimeout s) v (loadsInFlight s).
Definition set_loadsInFlight v s :=
  mkState (permissionGranted s) (isMonitoring s) (steps s) (lastStepTime s)
    (isPlaying s) (currentBPM s) (speed s) (permissionStatus s)
    (isDemoMode s) (currentAudio s) (audioContext s) (audioSource s)
    (gainNode s) (isLoading s) (demoTimeout s) (demoTimer s) v.

(** ** What the platform does with one request to start a track

    [fetch], [decodeAudioData] and [HTMLMediaElement.play] are outside the
    script; each call of [loadAndPlayAudio] is given the platform's answers.
    [createGain] and [connect] have no failure condition in the Web Audio
    API, so the constructor is the only point where the context can fail. *)

Inductive ElementOutcome :=
| PlayStarts          (* [play()] resolves, the element plays *)
| PlayRejected        (* [play()] rejects; the [.catch] handler logs *)
| ElementThrows.      (* [new Audio(...)] throws; the [catch] block logs *)

Record Platform := mkPlatform {
  contextAvailable : bool;   (* [new AudioContext()] succeeds *)
  decodeSucceeds : bool;     (* fetch, arrayBuffer and decodeAudioData succeed *)
  elementOutcome : ElementOutcome
}.

(** ** Playback controller *)

(** [Math.max(0.5, Math.min(2.0, playbackRate))], written out three times
    in the script. *)
Definition clampRate (playbackRate : float) : float :=
  Math_max 0.5 (Math_min 2.0 playbackRate).

Definition initializeAudioContext (p : Platform) (s : State) : State :=
  if contextAvailable p then set_gainNode true (set_audioContext true s)
  else s.

Definition stopSource (n : BufferSource) : BufferSource :=
  mkSource (srcBuffer n) (srcLoop n) (srcPlaybackRate n) false.

Definition pauseElement (e : AudioElement) : AudioElement :=
  mkElement (elSrc e) (elLoop e) (elVolume e) (elPlaybackRate e) true 0.

(** The fallback player.  The old element, if any, is paused and rewound
    before the new one is constructed. *)
Definition playWithHTMLAudio (track : MusicTrack) (p : Platform) (s : State)
  : State :=
  let s1 := match currentAudio s with
            | Some e => set_currentAudio (Some (pauseElement e)) s
            | None => s
            end in
  match elementOutcome p with
  | ElementThrows => s1
  | o =>
      let playbackRate := currentBPM s1 / originalBPM track in
      let e := mkElement (audioFile track) true 0.7 (clampRate playbackRate)
                 (match o with PlayStarts => false | _ => true end) 0 in
      set_currentAudio (Some e) s1
  end.

(** [loadAndPlayAudio] up to its first [await] on the network: the context
    is created if missing, [isLoading] is raised, and a present buffer
    source is stopped and disconnected but stays referenced. *)
Definition loadAndPlayAudio_begin (p : Platform) (s : State) : State :=
  let s0 := if negb (audioContext s) || negb (gainNode s)
            then initializeAudioContext p s else s in
  let s1 := set_isLoading true s0 in
  match audioSource s1 with
  | Some n => set_audioSource (Some (stopSource n)) s1
  | None => s1
  end.

(** [loadAndPlayAudio] after the awaits: either the decoded buffer is played
    through a fresh source at the clamped rate, or the [catch] block hands
    the track to the fallback player.  [currentBPM] is read here. *)
Definition loadAndPlayAudio_settle (track : MusicTrack) (p : Platform)
  (s : State) : State :=
  if audioContext s && decodeSucceeds p then
    let playbackRate := currentBPM s / originalBPM track in
    let n := mkSource (audioFile track) true (clampRate playbackRate) true in
    set_isLoading false (set_audioSource (Some n) s)
  else
    playWithHTMLAudio track p (set_isLoading false s).

(** A load whose awaits settle before any other callback runs. *)
Definition loadAndPlayAudio (track : MusicTrack) (p : Platform) (s : State)
  : State :=
  loadAndPlayAudio_settle track p (loadAndPlayAudio_begin p s).

Definition stopAudio (s : State) : State :=
  let s1 := match audioSource s with
            | Some _ => set_audioSource None s
            | None => s
            end in
  match currentAudio s1 with
  | Some _ => set_currentAudio None s1
  | None => s1
  end.

Definition adjustPlaybackSpeed (newBPM : float) (s : State) : State :=
  let currentTrack := getMatchingTrack newBPM in
  let playbackRate := newBPM / originalBPM currentTrack in
  let clampedRate := clampRate playbackRate in
  match audioSource s, audioContext s with
  | Some n, true =>
      set_audioSource
        (Some (mkSource (srcBuffer n) (srcLoop n) clampedRate (srcPlaying n))) s
  | _, _ =>
      match currentAudio s with
      | Some e =>
          set_currentAudio
            (Some (mkElement (elSrc e) (elLoop e) (elVolume e) clampedRate
                     (elPaused e) (elCurrentTime e))) s
      | None => s
      end
  end.

Definition toggleMusic (p : Platform) (s : State) : State :=
  if isPlaying s then set_isPlaying false (stopAudio s)
  else
    let s1 := set_isPlaying true s in
    let track := getMatchingTrack (currentBPM s1) in
    loadAndPlayAudio track p s1.

(** Which engine is audible. *)
Definition sourceActive (s : State) : bool :=
  match audioSource s with Some n => srcPlaying n | None => false end.

Definition elementActive (s : State) : bool :=
  match currentAudio s with Some e => negb (elPaused e) | None => false end.

Definition activeEngines (s : State) : nat :=
  (if sourceActive s then 1 else 0) + (if elementActive s then 1 else 0).

(** ** Cadence estimator *)

Definition stepLength : float := 0.7.

(** [timeElapsed] of [calculateSpeed]: [nowC] is what [Date.now()] returns
    inside [calculateSpeed]. *)
Definition timeElapsed (nowC : Z) (s : State) : float :=
  ofZ (nowC - lastStepTime s) / 1000.

Definition stepRate (nowC : Z) (s : State) : float := 1 / timeElapsed nowC s.

Definition newBPM_of (rate : float) : float :=
  Math_min 180 (Math_max 60 (rate * 60)).

(** The guarded block of [calculateSpeed] that reacts to a new BPM. *)
Definition onCadenceChanged (newBPM : float) (p : Platform) (s : State)
  : State :=
  if gt (Math_abs (newBPM - currentBPM s)) 2 then
    let previousTrack := getMatchingTrack (currentBPM s) in
    let s1 := set_currentBPM (Math_round newBPM) s in
    let newTrack := getMatchingTrack (currentBPM s1) in
    if isPlaying s1
       && negb (String.eqb (audioFile newTrack) (audioFile previousTrack))
    then loadAndPlayAudio newTrack p s1
    else if isPlaying s1 then adjustPlaybackSpeed (currentBPM s1) s1
    else s1
  else s.

Definition calculateSpeed (nowC : Z) (p : Platform) (s : State) : State :=
  if (1 <? steps s)%Z then
    let rate := stepRate nowC s in
    let s1 := set_speed (rate * stepLength) s in
    onCadenceChanged (newBPM_of rate) p s1
  else s.

(** ** Step detector *)

Definition threshold : float := 10.5.

(** [now] is the clock value read in [detectSteps], [nowC] the one read
    afterwards in [calculateSpeed]. *)
Definition detectSteps (magnitude : float) (now nowC : Z) (p : Platform)
  (s : State) : State :=
  if gt magnitude threshold then
    if (300 <? now - lastStepTime s)%Z then
      let s1 := set_steps (steps s + 1)%Z s in
      let s2 := set_lastStepTime now s1 in
      calculateSpeed nowC p s2
    else s
  else s.

(** ** Motion sampler *)

Record Acceleration := mkAccel {
  accX : option float;
  accY : option float;
  accZ : option float
}.

(** [v || 0]: null, NaN and both zeros are falsy. *)
Definition orZero (v : option float) : float :=
  match v with
  | Some x => if PrimFloat.is_nan x || PrimFloat.is_zero x then 0 else x
  | None => 0
  end.

Definition magnitudeOf (a : Acceleration) : float :=
  PrimFloat.sqrt (orZero (accX a) * orZero (accX a)
                  + orZero (accY a) * orZero (accY a)
                  + orZero (accZ a) * orZero (accZ a)).

Definition handleMotionEvent (accelerationIncludingGravity : option Acceleration)
  (now nowC : Z) (p : Platform) (s : State) : State :=
  match accelerationIncludingGravity with
  | None => s
  | Some acceleration => detectSteps (magnitudeOf acceleration) now nowC p s
  end.

(** ** Demo mode *)

Definition startDemoMode (s : State) : State :=
  set_demoTimer (Some (0.5, true))
    (set_permissionStatus "Demo mode (simulated motion)"
       (set_isDemoMode true s)).

(** One run of the interval callback on its captured variables. *)
Definition demoAdvance (d : float * bool) : float * bool :=
  let '(demoValue, increasing) := d in
  if increasing then
    let demoValue := demoValue + 0.05 in
    (demoValue, if gt demoValue 1.8 then false else increasing)
  else
    let demoValue := demoValue - 0.05 in
    (demoValue, if demoValue <? 0.5 then true else increasing).

Definition demoTick (s : State) : State :=
  match demoTimer s with
  | Some d =>
      let d1 := demoAdvance d in
      set_currentBPM (Math_round (80 + fst d1 * 40))
        (set_speed (fst d1) (set_demoTimer (Some d1) s))
  | None => s
  end.

Definition startMonitoring (s : State) : State :=
  if negb (permissionGranted s) || isMonitoring s then s
  else set_demoTimeout true (set_isMonitoring true s).

(** The 3000 ms timeout callback of [startMonitoring]. *)
Definition demoTimeoutFires (s : State) : State :=
  if demoTimeout s then
    let s1 := set_demoTimeout false s in
    if negb (isDemoMode s1) && (speed s1 =? 0) then startDemoMode s1 else s1
  else s.

(** ** Permission *)

Inductive PermissionReply :=
| NotRequired       (* no [requestPermission] function on this platform *)
| Granted
| Denied
| RequestThrows.

Definition requestPermission (r : PermissionReply) (s : State) : State :=
  match r with
  | Granted | NotRequired =>
      startMonitoring
        (set_permissionStatus "Motion access granted"
           (set_permissionGranted true s))
  | Denied => set_permissionStatus "Permission denied" s
  | RequestThrows => set_permissionStatus "Error requesting permission" s
  end.

(** ** The callbacks as the event loop runs them

    [loadAndPlayAudio] is asynchronous: a callback that calls it returns
    when the load reaches its first network [await], and the rest of the
    load runs whenever the fetch and the decode settle, after any number of
    other callbacks.  The definitions above that contain [loadAndPlayAudio]
    describe a callback together with the settling of its load, with
    nothing in between; the ones below stop where the callback returns and
    leave the load in flight. *)

Definition loadAndPlayAudio_start (track : MusicTrack) (p : Platform)
  (s : State) : State :=
  let s1 := loadAndPlayAudio_begin p s in
  set_loadsInFlight (loadsInFlight s1 ++ [track]) s1.

Definition removeNth {A : Type} (k : nat) (l : list A) : list A :=
  firstn k l ++ skipn (S k) l.

(** The [k]-th load in flight settles, with the platform's answers [p]. *)
Definition settleLoad (k : nat) (p : Platform) (s : State) : State :=
  match nth_error (loadsInFlight s) k with
  | Some track =>
      loadAndPlayAudio_settle track p
        (set_loadsInFlight (removeNth k (loadsInFlight s)) s)
  | None => s
  end.

(** [calculateSpeed] calls [loadAndPlayAudio] without awaiting it. *)
Definition onCadenceChanged_start (newBPM : float) (p : Platform) (s : State)
  : State :=
  if gt (Math_abs (newBPM - currentBPM s)) 2 then
    let previousTrack := getMatchingTrack (currentBPM s) in
    let s1 := set_currentBPM (Math_round newBPM) s in
    let newTrack := getMatchingTrack (currentBPM s1) in
    if isPlaying s1
       && negb (String.eqb (audioFile newTrack) (audioFile previousTrack))
    then loadAndPlayAudio_start newTrack p s1
    else if isPlaying s1 then adjustPlaybackSpeed (currentBPM s1) s1
    else s1
  else s.

Definition calculateSpeed_start (nowC : Z) (p : Platform) (s : State)
  : State :=
  if (1 <? steps s)%Z then
    let rate := stepRate nowC s in
    let s1 := set_speed (rate * stepLength) s in
    onCadenceChanged_start (newBPM_of rate) p s1
  else s.

Definition detectSteps_start (magnitude : float) (now nowC : Z)
  (p : Platform) (s : State) : State :=
  if gt magnitude threshold then
    if (300 <? now - lastStepTime s)%Z then
      let s1 := set_steps (steps s + 1)%Z s in
      let s2 := set_lastStepTime now s1 in
      calculateSpeed_start nowC p s2
    else s
  else s.

Definition handleMotionEvent_start
  (accelerationIncludingGravity : option Acceleration) (now nowC : Z)
  (p : Platform) (s : State) : State :=
  match accelerationIncludingGravity with
  | None => s
  | Some acceleration =>
      detectSteps_start (magnitudeOf acceleration) now nowC p s
  end.

(** [toggleMusic] awaits its load and does nothing after it. *)
Definition toggleMusic_start (p : Platform) (s : State) : State :=
  if isPlaying s then set_isPlaying false (stopAudio s)
  else
    let s1 := set_isPlaying true s in
    let track := getMatchingTrack (currentBPM s1) in
    loadAndPlayAudio_start track p s1.

(** ** Sessions: the callbacks the page can receive

    The permission button is disabled once permission is granted, the play
    button while [isLoading]; motion events arrive only after the listener
    is registered.  A load started by a callback stays in flight until an
    [OpSettle] delivers the platform's answer; loads settle in any order
    and at any later time. *)

Inductive Op :=
| OpRequestPermission (r : PermissionReply)
| OpDemoTimeout
| OpDemoTick
| OpMotion (ev : option Acceleration) (now nowC : Z) (p : Platform)
| OpToggle (p : Platform)
| OpSettle (k : nat) (p : Platform).

Definition step (o : Op) (s : State) : State :=
  match o with
  | OpRequestPermission r =>
      if permissionGranted s then s else requestPermission r s
  | OpDemoTimeout => demoTimeoutFires s
  | OpDemoTick => demoTick s
  | OpMotion ev now nowC p =>
      if isMonitoring s then handleMotionEvent_start ev now nowC p s else s
  | OpToggle p => if isLoading s then s else toggleMusic_start p s
  | OpSettle k p => settleLoad k p s
  end.

Definition run (ops : list Op) (s : State) : State :=
  fold_left (fun acc o => step o acc) ops s.

Inductive reachable : State -> Prop :=
| reach_init : reachable initialState
| reach_step o s : reachable s -> reachable (step o s).


(** A state with everything a load can write blanked out: what is left are
    the permission, cadence and demo variables and [isPlaying]. *)
Definition withoutAudio (s : State) : State :=
  set_loadsInFlight []
    (set_isLoading false
       (set_gainNode false
          (set_audioSource None
             (set_audioContext false (set_currentAudio None s))))).

(** Timestamps of the steps a stream of magnitude samples gets accepted:
    a sample is accepted when it raises the step counter. *)
Fixpoint acceptedSteps (samples : list (float * Z * Z * Platform))
  (s : State) : list Z :=
  match samples with
  | [] => []
  | (magnitude, now, nowC, p) :: rest =>
      let s1 := detectSteps magnitude now nowC p s in
      (if (steps s <? steps s1)%Z then [lastStepTime s1] else [])
        ++ acceptedSteps rest s1
  end.

(** ** The earlier revision of the page

    The repository also holds the page as it was before audio playback was
    added.  Its detector is the same; its estimator writes [currentBPM]
    directly, and its toggle only flips [isPlaying]. *)

Module Earlier.

Record State := mkState {
  steps : Z;
  lastStepTime : Z;
  isPlaying : bool;
  currentBPM : float;
  speed : float
}.

Definition calculateSpeed (nowC : Z) (s : State) : State :=
  if (1 <? steps s)%Z then
    let timeElapsed := ofZ (nowC - lastStepTime s) / 1000 in
    let stepRate := 1 / timeElapsed in
    mkState (steps s) (lastStepTime s) (isPlaying s)
      (Math_min 180 (Math_max 60 (stepRate * 60)))
      (stepRate * stepLength)
  else s.

Definition detectSteps (magnitude : float) (now nowC : Z) (s : State)
  : State :=
  if gt magnitude threshold then
    if (300 <? now - lastStepTime s)%Z then
      calculateSpeed nowC
        (mkState (steps s + 1)%Z now (isPlaying s) (currentBPM s) (speed s))
    else s
  else s.

Definition toggleMusic (s : State) : State :=
  mkState (steps s) (lastStepTime s) (negb (isPlaying s)) (currentBPM s)
    (speed s).

End Earlier.

(** ** Notions the specification uses *)

(** The specification's [clamp(x, lo, hi)]: [x] limited to the interval from
    [lo] to [hi].  The script has no such function; it nests [Math.max] and
    [Math.min]. *)
Definition clamp (x lo hi : float) : float :=
  if x <? lo then lo else if hi <? x then hi else x.

(** Every timestamp of the list lies more than 300 ms after its
    predecessor, the first one after [last]. *)
Fixpoint spaced (last : Z) (stamps : list Z) : Prop :=
  match stamps with
  | [] => True
  | t :: rest => (300 < t - last)%Z /\ spaced t rest
  end.

(** The values the demo generator's [demoValue] actually stays between. *)
Definition demoLow : float := 0.45.
Definition demoHigh : float := 1.8000000000000012.

Definition inDemoBand (v : float) : bool := (demoLow <=? v) && (v <=? demoHigh).

(** The captured variables after [k] runs of the interval callback. *)
Definition demoAfter (k : nat) : float * bool :=
  Nat.iter k demoAdvance (0.5, true).

(** The interval callback's variables only move by the callback. *)
Definition demoRunning (s : State) : Prop :=
  exists k, demoTimer s = Some (demoAfter k).

(** ** What the template derives from the state *)

(** [$: currentTrack = getMatchingTrack(currentBPM)]. *)
Definition currentTrack (s : State) : MusicTrack :=
  getMatchingTrack (currentBPM s).

Definition permissionButtonClass (s : State) : string :=
  if permissionGranted s && negb (isDemoMode s)
  then "bg-green-500 hover:bg-green-600"
  else if isDemoMode s then "bg-blue-500 hover:bg-blue-600"
       else "bg-orange-400 hover:bg-orange-500".

Definition permissionButtonText (s : State) : string :=
  if permissionGranted s && negb (isDemoMode s) then "Sensor Active"
  else if isDemoMode s then "Demo Active"
       else "Enable Motion Sensor".

(** [disabled={permissionGranted}] on the permission button. *)
Definition permissionButtonDisabled (s : State) : bool := permissionGranted s.

(** ** Counting and observing sessions *)

(** The motion events among the operations of a session. *)
Fixpoint motionEvents (ops : list Op) : nat :=
  match ops with
  | [] => 0
  | OpMotion _ _ _ _ :: rest => S (motionEvents rest)
  | _ :: rest => motionEvents rest
  end.

(** The accepted steps of the earlier revision, observed as for the
    current one. *)
Fixpoint earlierAcceptedSteps (samples : list (float * Z * Z))
  (s : Earlier.State) : list Z :=
  match samples with
  | [] => []
  | (magnitude, now, nowC) :: rest =>
      let s1 := Earlier.detectSteps magnitude now nowC s in
      (if (Earlier.steps s <? Earlier.steps s1)%Z
       then [Earlier.lastStepTime s1] else [])
        ++ earlierAcceptedSteps rest s1
  end.

(** What a session keeps about permission, monitoring and the demo. *)
Definition gated (s : State) : Prop :=
  isMonitoring s = permissionGranted s
  /\ (isDemoMode s = true -> permissionGranted s = true)
  /\ (isDemoMode s = true <->
      permissionStatus s = "Demo mode (simulated motion)"%string)
  /\ (permissionGranted s = false ->
      steps s = 0%Z /\ lastStepTime s = 0%Z /\ speed s = 0
      /\ currentBPM s = 0 /\ demoTimer s = None /\ demoTimeout s = false).

(** Whether the streaming element ends up playing. *)
Definition elementPlays (o : ElementOutcome) : bool :=
  match o with PlayStarts => true | _ => false end.

(** Whether a load started in state [s] on platform [p] ends with the
    buffered source: the context exists or can be created, and the file
    decodes. *)
Definition bufferedStart (p : Platform) (s : State) : bool :=
  (audioContext s || contextAvailable p) && decodeSucceeds p.


(** A comparison read from the other side. *)
Definition swap_comparison (c : float_comparison) : float_comparison :=
  match c with
  | FEq => FEq
  | FLt => FGt
  | FGt => FLt
  | FNotComparable => FNotComparable
  end.

Arguments getMatchingTrack : simpl never.
Arguments clampRate : simpl never.
Arguments Math_round : simpl never.
Arguments newBPM_of : simpl never.
Arguments stepRate : simpl never.
Arguments demoAdvance : simpl never.

(** * Properties *)

(** ** Comparisons of binary64 numbers *)

Section FloatFacts.

Lemma ltb_compare x y :
  (x <? y) = match x ?= y with FLt => true | _ => false end.
Proof.
  rewrite FloatAxioms.ltb_spec, FloatAxioms.compare_spec. unfold SFltb.
  destruct (SFcompare (Prim2SF x) (Prim2SF y)) as [[| |]|]; reflexivity.
Qed.

Lemma compare_notcomparable x y :
  (x ?= y) = FNotComparable -> x = nan \/ y = nan.
Proof.
  rewrite FloatAxioms.compare_spec. intros H.
  assert (Prim2SF x = S754_nan \/ Prim2SF y = S754_nan) as [E | E].
  { destruct (Prim2SF x) as [[|]|[|]| |[|] ? ?],
             (Prim2SF y) as [[|]|[|]| |[|] ? ?];
      cbn in H; auto; try discriminate;
      destruct (Z.compare _ _); try discriminate;
      destruct (Pos.compare_cont _ _ _); discriminate. }
  - left. apply Prim2SF_inj. rewrite E. reflexivity.
  - right. apply Prim2SF_inj. rewrite E. reflexivity.
Qed.

Lemma compare_eq_finite x y s m e :
  Prim2SF x = S754_finite s m e -> (x ?= y) = FEq -> y = x.
Proof.
  intros E. rewrite FloatAxioms.compare_spec, E. intros H.
  apply Prim2SF_inj. rewrite E.
  destruct (Prim2SF y) as [[|]|[|]| |[|] m' e']; destruct s; cbn in H;
    try discriminate.
  - destruct (Z.compare_spec e e'); try discriminate. subst.
    destruct (Pos.compare_cont Eq m m') eqn:C; try discriminate.
    apply Pos.compare_eq in C. now subst.
  - destruct (Z.compare_spec e e'); try discriminate. subst.
    destruct (Pos.compare_cont Eq m m') eqn:C; try discriminate.
    apply Pos.compare_eq in C. now subst.
Qed.

Lemma compare_swap x y : (y ?= x) = swap_comparison (x ?= y).
Proof.
  rewrite !FloatAxioms.compare_spec.
  destruct (Prim2SF x) as [[|]|[|]| |[|] m e],
           (Prim2SF y) as [[|]|[|]| |[|] m' e'];
    cbn [SFcompare flatten_cmp_opt swap_comparison]; try reflexivity;
    rewrite (Z.compare_antisym e' e);
    destruct (Z.compare e' e); cbn [CompOpp]; try reflexivity;
    change (Pos.compare_cont Eq m' m) with (Pos.compare m' m);
    change (Pos.compare_cont Eq m m') with (Pos.compare m m');
    rewrite (Pos.compare_antisym m m');
    destruct (Pos.compare m m'); reflexivity.
Qed.

(** A number above 2 is above one half. *)
Lemma above_two_above_half r : (2 ?= r) = FLt -> (0.5 ?= r) = FLt.
Proof.
  rewrite !FloatAxioms.compare_spec.
  replace (Prim2SF 2) with (S754_finite false 4503599627370496 (-51))
    by (vm_compute; reflexivity).
  replace (Prim2SF 0.5) with (S754_finite false 4503599627370496 (-53))
    by (vm_compute; reflexivity).
  destruct (Prim2SF r) as [[|]|[|]| |[|] m e];
    cbn [SFcompare flatten_cmp_opt]; try discriminate; auto.
  destruct (Z.compare_spec (-51) e), (Z.compare_spec (-53) e);
    try discriminate; auto; try lia.
Qed.

End FloatFacts.

(** The nested [Math.max(0.5, Math.min(2.0, r))] is the specification's
    clamp, for every number including NaN and the infinities. *)
Lemma clampRate_clamp r : clampRate r = clamp r 0.5 2.
Proof.
  unfold clampRate, clamp, Math_min.
  rewrite !ltb_compare, (compare_swap 0.5 r).
  destruct (2 ?= r) eqn:C2.
  - (* r = 2 *)
    apply (compare_eq_finite 2 r false 4503599627370496 (-51)) in C2;
      [subst r; vm_compute; reflexivity | vm_compute; reflexivity].
  - (* 2 < r *)
    rewrite (above_two_above_half r C2). reflexivity.
  - (* r < 2 *)
    unfold Math_max.
    destruct (0.5 ?= r) eqn:C1; cbn [swap_comparison].
    + apply (compare_eq_finite 0.5 r false 4503599627370496 (-53)) in C1;
        [subst r; vm_compute; reflexivity | vm_compute; reflexivity].
    + reflexivity.
    + reflexivity.
    + destruct (compare_notcomparable _ _ C1) as [E | E];
        [vm_compute in E; discriminate
        | subst r; vm_compute in C2; discriminate].
  - (* r is NaN *)
    destruct (compare_notcomparable _ _ C2) as [E | E];
      [vm_compute in E; discriminate | subst r; vm_compute; reflexivity].
Qed.

(** ** Track selector *)

(** [find] returns the first element satisfying the predicate. *)
Lemma find_first {A} (f : A -> bool) (l : list A) :
  match find f l with
  | Some x =>
      exists i, nth_error l i = Some x /\ f x = true /\
                forall j y, j < i -> nth_error l j = Some y -> f y = false
  | None => forall y, In y l -> f y = false
  end.
Proof.
  induction l as [|a l IH]; cbn [find].
  - intros y [].
  - destruct (f a) eqn:Fa.
    + exists 0%nat. repeat split; auto. intros j y Hj. lia.
    + destruct (find f l) as [x|].
      * destruct IH as (i & Hi & Hx & Hbefore).
        exists (S i). repeat split; auto.
        intros [|j] y Hj Hy; cbn in Hy.
        -- now inversion Hy; subst.
        -- apply (Hbefore j); auto. lia.
      * intros y [-> | Hy]; auto.
Qed.

(** C6: for every BPM value [getMatchingTrack] returns the first catalog
    entry whose half-open range [minBPM, maxBPM) contains it, and the
    catalog's first entry when no range does; 89 selects "Relaxing
    Ambient", 90 "Chill Vibes", 199 "Power Walk", and 200 falls back to the
    first entry. *)
Theorem getMatchingTrack_first_in_range :
  (forall bpm,
      (exists i,
          nth_error musicTracks i = Some (getMatchingTrack bpm) /\
          inRange bpm (getMatchingTrack bpm) = true /\
          forall j track, j < i -> nth_error musicTracks j = Some track ->
                          inRange bpm track = false)
      \/ ((forall track, In track musicTracks -> inRange bpm track = false) /\
          nth_error musicTracks 0%nat = Some (getMatchingTrack bpm)))
  /\ (forall bpm track,
         inRange bpm track = true <->
         (minBPM track <=? bpm) = true /\ (bpm <? maxBPM track) = true)
  /\ name (getMatchingTrack 89) = "Relaxing Ambient"%string
  /\ name (getMatchingTrack 90) = "Chill Vibes"%string
  /\ name (getMatchingTrack 199) = "Power Walk"%string
  /\ find (inRange 200) musicTracks = None
  /\ nth_error musicTracks 0%nat = Some (getMatchingTrack 200).
Proof.
  split; [| split; [| repeat split; vm_compute; reflexivity]].
  - intros bpm. unfold getMatchingTrack.
    pose proof (find_first (inRange bpm) musicTracks) as H.
    destruct (find (inRange bpm) musicTracks) as [track|].
    + left. exact H.
    + right. split; [exact H | reflexivity].
  - intros bpm track. unfold inRange, ge. apply andb_true_iff.
Qed.

(** ** Playback controller *)

Ltac split_cases :=
  repeat match goal with
         | |- context [if ?b then _ else _] => destruct b eqn:?
         | |- context [match ?x with _ => _ end] => destruct x eqn:?
         end.

Ltac unfold_playback :=
  unfold toggleMusic, loadAndPlayAudio, loadAndPlayAudio_settle,
    loadAndPlayAudio_begin, playWithHTMLAudio, initializeAudioContext,
    adjustPlaybackSpeed, stopAudio.

(** Starting a track leaves the cadence variables and the flags of the
    session alone. *)
Lemma loadAndPlayAudio_frame track p s :
  let s' := loadAndPlayAudio track p s in
  steps s' = steps s /\ lastStepTime s' = lastStepTime s /\
  isPlaying s' = isPlaying s /\ currentBPM s' = currentBPM s /\
  speed s' = speed s /\ isLoading s' = false /\
  demoTimer s' = demoTimer s /\ isDemoMode s' = isDemoMode s /\
  isMonitoring s' = isMonitoring s /\
  permissionGranted s' = permissionGranted s /\
  demoTimeout s' = demoTimeout s.
Proof.
  destruct s. unfold_playback. cbn. split_cases; cbn; repeat split.
Qed.

Lemma adjustPlaybackSpeed_frame bpm s :
  let s' := adjustPlaybackSpeed bpm s in
  steps s' = steps s /\ lastStepTime s' = lastStepTime s /\
  isPlaying s' = isPlaying s /\ currentBPM s' = currentBPM s /\
  speed s' = speed s /\ isLoading s' = isLoading s /\
  demoTimer s' = demoTimer s /\ isDemoMode s' = isDemoMode s /\
  isMonitoring s' = isMonitoring s /\
  permissionGranted s' = permissionGranted s /\
  demoTimeout s' = demoTimeout s.
Proof.
  destruct s. unfold_playback. cbn. split_cases; cbn; repeat split.
Qed.

(** C7: every playback rate the controller writes is
    clamp(bpm / track.originalBPM, 0.5, 2.0): on the buffered source when
    the pitch-preserving start succeeds, on the streaming element when the
    fallback starts, and on whichever of the two a retune addresses, where
    the track of a retune is the one matching the new BPM;
    computeRate(150, 75) = 2.0 and computeRate(60, 175) = 0.5. *)
Theorem playback_rate_is_clamped_ratio :
  (forall track p s,
      contextAvailable p = true -> decodeSucceeds p = true ->
      audioSource (loadAndPlayAudio track p s)
      = Some (mkSource (audioFile track) true
                (clamp (currentBPM s / originalBPM track) 0.5 2) true))
  /\ (forall track p s,
         decodeSucceeds p = false -> elementOutcome p = PlayStarts ->
         currentAudio (loadAndPlayAudio track p s)
         = Some (mkElement (audioFile track) true 0.7
                   (clamp (currentBPM s / originalBPM track) 0.5 2) false 0))
  /\ (forall bpm s n,
         audioSource s = Some n -> audioContext s = true ->
         audioSource (adjustPlaybackSpeed bpm s)
         = Some (mkSource (srcBuffer n) (srcLoop n)
                   (clamp (bpm / originalBPM (getMatchingTrack bpm)) 0.5 2)
                   (srcPlaying n)))
  /\ (forall bpm s e,
         audioSource s = None -> currentAudio s = Some e ->
         currentAudio (adjustPlaybackSpeed bpm s)
         = Some (mkElement (elSrc e) (elLoop e) (elVolume e)
                   (clamp (bpm / originalBPM (getMatchingTrack bpm)) 0.5 2)
                   (elPaused e) (elCurrentTime e)))
  /\ clampRate (150 / 75) = 2 /\ clamp (150 / 75) 0.5 2 = 2
  /\ clampRate (60 / 175) = 0.5 /\ clamp (60 / 175) 0.5 2 = 0.5.
Proof.
  repeat split; try (vm_compute; reflexivity).
  - intros track p s Hc Hd.
    destruct s as [? ? ? ? ? ? ? ? ? ? ctx src gain ? ? ? ?].
    unfold_playback. cbn. rewrite Hc, Hd. rewrite <- clampRate_clamp.
    destruct ctx, gain, src; reflexivity.
  - intros track p s Hd Ho.
    destruct s as [? ? ? ? ? ? ? ? ? el ctx src gain ? ? ? ?].
    unfold_playback. cbn. rewrite Hd. rewrite <- clampRate_clamp.
    destruct ctx, gain, (contextAvailable p), src, el; cbn;
      rewrite Ho; reflexivity.
  - intros bpm [] n Hs Hc. unfold_playback. cbn in *. subst.
    rewrite clampRate_clamp. reflexivity.
  - intros bpm [] e Hs He. unfold_playback. cbn in *. subst.
    rewrite clampRate_clamp. reflexivity.
Qed.

(** C9: stopping is idempotent.  A second [stopAudio] changes nothing, it
    is a no-op when nothing is playing, the stop branch of [toggleMusic]
    leaves [isPlaying = false] with no active engine and repeating it gives
    the same state.  [stopAudio] guards each engine by a null test and is a
    total function: there is no state in which it fails. *)
Theorem stopAudio_idempotent :
  forall s,
    stopAudio (stopAudio s) = stopAudio s
    /\ audioSource (stopAudio s) = None
    /\ currentAudio (stopAudio s) = None
    /\ activeEngines (stopAudio s) = 0%nat
    /\ (audioSource s = None -> currentAudio s = None -> stopAudio s = s)
    /\ (forall p, isPlaying s = true ->
                  toggleMusic p s = set_isPlaying false (stopAudio s))
    /\ isPlaying (set_isPlaying false (stopAudio s)) = false
    /\ activeEngines (set_isPlaying false (stopAudio s)) = 0%nat
    /\ set_isPlaying false (stopAudio (set_isPlaying false (stopAudio s)))
       = set_isPlaying false (stopAudio s).
Proof.
  intros s. destruct s as [? ? ? ? ? ? ? ? ? el ? src ? ? ? ? ?].
  repeat split.
  - destruct src, el; reflexivity.
  - destruct src, el; reflexivity.
  - destruct src, el; reflexivity.
  - destruct src, el; reflexivity.
  - cbn. intros -> ->. reflexivity.
  - cbn. intros p ->. reflexivity.
  - destruct src, el; reflexivity.
  - destruct src, el; reflexivity.
Qed.

(** C3 fails on the script: from the initial state, with the decode failing
    and [play()] rejected, no engine is active after the toggle and
    [isPlaying] is true. *)
Lemma both_engines_fail_isPlaying_true :
  let p := mkPlatform true false PlayRejected in
  let s := toggleMusic p initialState in
  isPlaying initialState = false
  /\ sourceActive s = false /\ elementActive s = false
  /\ isPlaying s = true.
Proof. vm_compute. repeat split. Qed.

(** C3 as amended: a toggle that attempts to start playback leaves
    [isPlaying = true] whatever the engines do; when the pitch-preserving
    load fails and the streaming element does not start, [isPlaying] is
    true with no engine active. *)
Theorem toggle_start_sets_isPlaying p s :
  isPlaying s = false ->
  isPlaying (toggleMusic p s) = true
  /\ (decodeSucceeds p = false -> elementOutcome p <> PlayStarts ->
      activeEngines (toggleMusic p s) = 0%nat).
Proof.
  intros Hp. unfold toggleMusic. rewrite Hp. split.
  - destruct (loadAndPlayAudio_frame
                (getMatchingTrack (currentBPM (set_isPlaying true s))) p
                (set_isPlaying true s)) as (_ & _ & H & _).
    rewrite H. reflexivity.
  - intros Hd Ho.
    destruct s as [? ? ? ? ? ? ? ? ? el ctx src gain ? ? ? ?].
    unfold_playback. unfold activeEngines, sourceActive, elementActive.
    cbn. rewrite Hd.
    destruct ctx, gain, (contextAvailable p), src, el,
      (elementOutcome p); cbn; congruence.
Qed.

Lemma toggle_start_sets_isPlaying_witness :
  isPlaying (toggleMusic (mkPlatform true false PlayRejected) initialState)
  = true
  /\ (decodeSucceeds (mkPlatform true false PlayRejected) = false ->
      elementOutcome (mkPlatform true false PlayRejected) <> PlayStarts ->
      activeEngines
        (toggleMusic (mkPlatform true false PlayRejected) initialState)
      = 0%nat).
Proof.
  exact (toggle_start_sets_isPlaying
           (mkPlatform true false PlayRejected) initialState eq_refl).
Defined.

(** The catalog's audio files identify its tracks. *)
Lemma getMatchingTrack_in_catalog bpm : In (getMatchingTrack bpm) musicTracks.
Proof.
  unfold getMatchingTrack.
  destruct (find (inRange bpm) musicTracks) as [track|] eqn:F.
  - apply find_some in F. tauto.
  - left. reflexivity.
Qed.



(** ** Step detector *)

Lemma onCadenceChanged_frame newBPM p s :
  let s' := onCadenceChanged newBPM p s in
  steps s' = steps s /\ lastStepTime s' = lastStepTime s /\
  isPlaying s' = isPlaying s /\ demoTimer s' = demoTimer s /\
  isDemoMode s' = isDemoMode s /\ isMonitoring s' = isMonitoring s /\
  permissionGranted s' = permissionGranted s /\
  demoTimeout s' = demoTimeout s /\ speed s' = speed s.
Proof.
  unfold onCadenceChanged.
  destruct (gt (Math_abs (newBPM - currentBPM s)) 2); [| cbn; tauto].
  match goal with
  | |- context [loadAndPlayAudio ?t p ?s1] =>
      pose proof (loadAndPlayAudio_frame t p s1) as L
  end.
  match goal with
  | |- context [adjustPlaybackSpeed ?b ?s1] =>
      pose proof (adjustPlaybackSpeed_frame b s1) as A
  end.
  cbn zeta in *. split_cases; cbn in *; intuition congruence.
Qed.

Lemma calculateSpeed_frame nowC p s :
  let s' := calculateSpeed nowC p s in
  steps s' = steps s /\ lastStepTime s' = lastStepTime s /\
  isPlaying s' = isPlaying s /\ demoTimer s' = demoTimer s /\
  isDemoMode s' = isDemoMode s /\ isMonitoring s' = isMonitoring s /\
  permissionGranted s' = permissionGranted s /\
  demoTimeout s' = demoTimeout s.
Proof.
  unfold calculateSpeed. destruct (1 <? steps s)%Z; [| cbn; tauto].
  pose proof (onCadenceChanged_frame (newBPM_of (stepRate nowC s)) p
                (set_speed (stepRate nowC s * stepLength) s)) as H.
  cbn zeta in H. tauto.
Qed.

(** The speed written by an accepted step is computed from the two clock
    readings of that very step; the previous step's time does not enter. *)
Lemma detectSteps_speed magnitude now nowC p s :
  gt magnitude threshold = true ->
  (300 <? now - lastStepTime s)%Z = true ->
  (0 <? steps s)%Z = true ->
  speed (detectSteps magnitude now nowC p s)
  = 1 / (ofZ (nowC - now) / 1000) * stepLength.
Proof.
  intros Hm Hr Hs. unfold detectSteps. rewrite Hm, Hr.
  unfold calculateSpeed.
  change (steps (set_lastStepTime now (set_steps (steps s + 1)%Z s)))
    with (steps s + 1)%Z.
  replace (1 <? steps s + 1)%Z with true by (symmetry; lia).
  match goal with
  | |- context [onCadenceChanged ?b p ?s1] =>
      destruct (onCadenceChanged_frame b p s1)
        as (_ & _ & _ & _ & _ & _ & _ & _ & H)
  end.
  rewrite H. reflexivity.
Qed.

(** What one magnitude sample does to the two variables of the detector. *)
Lemma detectSteps_counter magnitude now nowC p s :
  let accepted := gt magnitude threshold && (300 <? now - lastStepTime s)%Z in
  steps (detectSteps magnitude now nowC p s)
  = (if accepted then steps s + 1 else steps s)%Z
  /\ lastStepTime (detectSteps magnitude now nowC p s)
     = (if accepted then now else lastStepTime s).
Proof.
  unfold detectSteps.
  destruct (gt magnitude threshold); cbn [andb]; [| tauto].
  destruct (300 <? now - lastStepTime s)%Z; [| tauto].
  match goal with
  | |- context [calculateSpeed nowC p ?s1] =>
      destruct (calculateSpeed_frame nowC p s1) as (Hs & Hl & _)
  end.
  rewrite Hs, Hl. cbn. tauto.
Qed.

Lemma acceptedSteps_cons magnitude now nowC p rest s :
  acceptedSteps ((magnitude, now, nowC, p) :: rest) s
  = (if gt magnitude threshold && (300 <? now - lastStepTime s)%Z
     then [now] else [])
      ++ acceptedSteps rest (detectSteps magnitude now nowC p s).
Proof.
  cbn [acceptedSteps].
  destruct (detectSteps_counter magnitude now nowC p s) as (Hs & Hl).
  cbn zeta in Hs, Hl. rewrite Hs, Hl.
  destruct (gt magnitude threshold && (300 <? now - lastStepTime s)%Z).
  - replace (steps s <? steps s + 1)%Z with true by (symmetry; lia).
    reflexivity.
  - rewrite Z.ltb_irrefl. reflexivity.
Qed.

Lemma acceptedSteps_spaced samples :
  forall s, spaced (lastStepTime s) (acceptedSteps samples s).
Proof.
  induction samples as [|[[[magnitude now] nowC] p] rest IH]; intros s.
  - exact I.
  - rewrite acceptedSteps_cons.
    specialize (IH (detectSteps magnitude now nowC p s)).
    destruct (detectSteps_counter magnitude now nowC p s) as (_ & Hl).
    cbn zeta in Hl. rewrite Hl in IH.
    destruct (gt magnitude threshold) ; cbn [andb app] in *; [| exact IH].
    destruct (300 <? now - lastStepTime s)%Z eqn:R; cbn [app]; [| exact IH].
    split; [lia | exact IH].
Qed.

Lemma spaced_pairs stamps :
  forall last,
    spaced last stamps ->
    Forall (fun t => 300 < t - last)%Z stamps
    /\ ForallOrdPairs (fun t1 t2 => 300 < t2 - t1)%Z stamps.
Proof.
  induction stamps as [|t rest IH]; intros last H.
  - split; constructor.
  - destruct H as [Ht Hrest]. destruct (IH t Hrest) as [Hall Hpairs].
    split.
    + constructor; [exact Ht |].
      eapply Forall_impl; [| exact Hall]. cbn. intros; lia.
    + constructor; assumption.
Qed.

(** C5: whatever the magnitude samples are, any two accepted steps, in
    their order of acceptance, lie more than 300 ms apart, and each lies
    more than 300 ms after the step the detector had last accepted; a
    sample is accepted exactly when its magnitude exceeds 10.5 and more
    than 300 ms have passed since the last accepted step. *)
Theorem accepted_steps_refractory :
  forall (samples : list (float * Z * Z * Platform)) (s : State),
    ForallOrdPairs (fun t1 t2 => 300 < t2 - t1)%Z (acceptedSteps samples s)
    /\ Forall (fun t => 300 < t - lastStepTime s)%Z (acceptedSteps samples s)
    /\ (forall magnitude now nowC p,
           acceptedSteps [(magnitude, now, nowC, p)] s
           = if (10.5 <? magnitude) && (300 <? now - lastStepTime s)%Z
             then [now] else [])
    /\ (forall magnitude now nowC p,
           (10.5 <? magnitude) && (300 <? now - lastStepTime s)%Z = false ->
           detectSteps magnitude now nowC p s = s).
Proof.
  intros samples s.
  destruct (spaced_pairs _ _ (acceptedSteps_spaced samples s)) as [Hall Hp].
  repeat split; auto.
  - intros. rewrite acceptedSteps_cons. cbn [acceptedSteps].
    rewrite app_nil_r. reflexivity.
  - intros magnitude now nowC p H. unfold detectSteps, gt, threshold.
    destruct (10.5 <? magnitude); cbn [andb] in H; [| reflexivity].
    rewrite H. reflexivity.
Qed.

(** Both revisions of the page count steps, stamp them and compute the
    speed in the same way. *)
Lemma earlier_detectSteps_agrees magnitude now nowC p s e :
  Earlier.steps e = steps s -> Earlier.lastStepTime e = lastStepTime s ->
  Earlier.speed e = speed s ->
  let s' := detectSteps magnitude now nowC p s in
  let e' := Earlier.detectSteps magnitude now nowC e in
  Earlier.steps e' = steps s' /\ Earlier.lastStepTime e' = lastStepTime s'
  /\ Earlier.speed e' = speed s'.
Proof.
  intros Hs Hl Hv. cbn zeta.
  unfold Earlier.detectSteps, detectSteps. rewrite Hl.
  destruct (gt magnitude threshold); [| tauto].
  destruct (300 <? now - lastStepTime s)%Z; [| tauto].
  unfold Earlier.calculateSpeed, calculateSpeed.
  cbn [Earlier.steps Earlier.lastStepTime Earlier.isPlaying
       Earlier.currentBPM Earlier.speed].
  change (steps (set_lastStepTime now (set_steps (steps s + 1)%Z s)))
    with (steps s + 1)%Z.
  rewrite Hs. destruct (1 <? steps s + 1)%Z; [| cbn; tauto].
  match goal with
  | |- context [onCadenceChanged ?b p ?s1] =>
      destruct (onCadenceChanged_frame b p s1)
        as (F1 & F2 & _ & _ & _ & _ & _ & _ & F3)
  end.
  rewrite F1, F2, F3. cbn. unfold stepRate, timeElapsed. cbn. tauto.
Qed.

(** ** Cadence estimator *)

(** C1 does not hold of the script: [detectSteps] stores [now] in
    [lastStepTime] before it calls [calculateSpeed], so the interval that
    [calculateSpeed] divides by is the time between the two clock readings
    of one step.  Steps 0.5 s and 2 s apart, with the clock read twice in
    the same millisecond, both give an infinite speed and 180 BPM; the
    formulas of the claim, fed with the interval itself, give the values
    the claim states.  A sample 0.2 s after a step is not accepted at
    all. *)
Theorem cadence_ignores_step_interval :
  let p := mkPlatform true true PlayStarts in
  let s1 := detectSteps 11 1000000 1000000 p initialState in
  let half := detectSteps 11 1000500 1000500 p s1 in
  let two := detectSteps 11 1002000 1002000 p s1 in
  acceptedSteps [(11, 1000000%Z, 1000000%Z, p); (11, 1000500%Z, 1000500%Z, p)]
    initialState = [1000000; 1000500]%Z
  /\ acceptedSteps [(11, 1000000%Z, 1000000%Z, p); (11, 1002000%Z, 1002000%Z, p)]
       initialState = [1000000; 1002000]%Z
  /\ acceptedSteps [(11, 1000000%Z, 1000000%Z, p); (11, 1000200%Z, 1000200%Z, p)]
       initialState = [1000000%Z]
  /\ speed half = infinity /\ currentBPM half = 180
  /\ speed two = infinity /\ currentBPM two = 180
  /\ newBPM_of (1 / (ofZ 500 / 1000)) = 120
  /\ 1 / (ofZ 500 / 1000) * stepLength = 1.4
  /\ newBPM_of (1 / (ofZ 2000 / 1000)) = 60
  /\ 1 / (ofZ 2000 / 1000) * stepLength = 0.35
  /\ newBPM_of (1 / (ofZ 200 / 1000)) = 180
  /\ 1 / (ofZ 200 / 1000) * stepLength = 3.5.
Proof. vm_compute. repeat split. Qed.

(** C2 does not hold of the script: at the division of the second step
    below, 500 ms after the first one and past the refractory check,
    [lastStepTime] already holds the time of the step being processed, so
    [timeElapsed] is 0 and the step rate is infinite. *)
Theorem timeElapsed_zero_at_division :
  let p := mkPlatform true true PlayStarts in
  let s1 := detectSteps 11 1000000 1000000 p initialState in
  let atDivision := set_lastStepTime 1000500 (set_steps (steps s1 + 1) s1) in
  lastStepTime s1 = 1000000%Z
  /\ (300 <? 1000500 - lastStepTime s1)%Z = true
  /\ detectSteps 11 1000500 1000500 p s1 = calculateSpeed 1000500 p atDivision
  /\ (1 <? steps atDivision)%Z = true
  /\ timeElapsed 1000500 atDivision = 0
  /\ stepRate 1000500 atDivision = infinity.
Proof. vm_compute. repeat split. Qed.

(** ** Loads in flight *)

(** What a load, a retune and a stop leave alone. *)
Lemma withoutAudio_begin p s :
  withoutAudio (loadAndPlayAudio_begin p s) = withoutAudio s
  /\ loadsInFlight (loadAndPlayAudio_begin p s) = loadsInFlight s.
Proof. destruct s. unfold_playback. cbn. split_cases; split; reflexivity. Qed.

Lemma withoutAudio_settle track p s :
  withoutAudio (loadAndPlayAudio_settle track p s) = withoutAudio s
  /\ loadsInFlight (loadAndPlayAudio_settle track p s) = loadsInFlight s.
Proof. destruct s. unfold_playback. cbn. split_cases; split; reflexivity. Qed.

Lemma withoutAudio_adjust bpm s :
  withoutAudio (adjustPlaybackSpeed bpm s) = withoutAudio s
  /\ loadsInFlight (adjustPlaybackSpeed bpm s) = loadsInFlight s.
Proof. destruct s. unfold_playback. cbn. split_cases; split; reflexivity. Qed.

Lemma withoutAudio_stop s :
  withoutAudio (stopAudio s) = withoutAudio s
  /\ loadsInFlight (stopAudio s) = loadsInFlight s.
Proof. destruct s. unfold_playback. cbn. split_cases; split; reflexivity. Qed.


Lemma withoutAudio_settleLoad k p s :
  withoutAudio (settleLoad k p s) = withoutAudio s.
Proof.
  unfold settleLoad. destruct (nth_error (loadsInFlight s) k); [| reflexivity].
  match goal with
  | |- context [loadAndPlayAudio_settle ?t p ?s1] =>
      destruct (withoutAudio_settle t p s1) as [H _]
  end.
  rewrite H. reflexivity.
Qed.

(** States that agree outside the audio variables agree on every
    permission, cadence and demo variable and on [isPlaying]. *)
Lemma withoutAudio_fields a b :
  withoutAudio a = withoutAudio b ->
  permissionGranted a = permissionGranted b
  /\ isMonitoring a = isMonitoring b
  /\ steps a = steps b /\ lastStepTime a = lastStepTime b
  /\ isPlaying a = isPlaying b /\ currentBPM a = currentBPM b
  /\ speed a = speed b /\ permissionStatus a = permissionStatus b
  /\ isDemoMode a = isDemoMode b /\ demoTimeout a = demoTimeout b
  /\ demoTimer a = demoTimer b.
Proof.
  intros H.
  repeat split;
    [ exact (f_equal permissionGranted H) | exact (f_equal isMonitoring H)
    | exact (f_equal steps H) | exact (f_equal lastStepTime H)
    | exact (f_equal isPlaying H) | exact (f_equal currentBPM H)
    | exact (f_equal speed H) | exact (f_equal permissionStatus H)
    | exact (f_equal isDemoMode H) | exact (f_equal demoTimeout H)
    | exact (f_equal demoTimer H) ].
Qed.

Lemma nth_error_snoc {A} (l : list A) (x : A) :
  nth_error (l ++ [x]) (List.length l) = Some x.
Proof. rewrite nth_error_app2, Nat.sub_diag by lia. reflexivity. Qed.

Lemma removeNth_snoc {A} (l : list A) (x : A) :
  removeNth (List.length l) (l ++ [x]) = l.
Proof.
  unfold removeNth.
  rewrite firstn_app, Nat.sub_diag, firstn_all, skipn_all2, !app_nil_r
    by (rewrite length_app; cbn; lia).
  reflexivity.
Qed.

(** A load that settles before anything else happens is the load run in
    one piece. *)
Lemma settleLoad_start track p s :
  settleLoad (List.length (loadsInFlight s)) p (loadAndPlayAudio_start track p s)
  = loadAndPlayAudio track p s.
Proof.
  unfold settleLoad, loadAndPlayAudio_start, loadAndPlayAudio.
  destruct (withoutAudio_begin p s) as [_ L].
  cbn [loadsInFlight set_loadsInFlight]. rewrite L.
  rewrite nth_error_snoc, removeNth_snoc. rewrite <- L.
  f_equal. destruct (loadAndPlayAudio_begin p s). reflexivity.
Qed.

Lemma settleLoad_nothing_new p s s' :
  loadsInFlight s' = loadsInFlight s ->
  settleLoad (List.length (loadsInFlight s)) p s' = s'.
Proof.
  intros L. unfold settleLoad. rewrite L.
  replace (nth_error (loadsInFlight s) (List.length (loadsInFlight s)))
    with (@None MusicTrack); [reflexivity |].
  symmetry. apply nth_error_None. lia.
Qed.

(** Each callback that may start a load, followed at once by the settling
    of that load, is the callback with its load run in one piece. *)
Lemma onCadenceChanged_settles newBPM p s :
  settleLoad (List.length (loadsInFlight s)) p (onCadenceChanged_start newBPM p s)
  = onCadenceChanged newBPM p s.
Proof.
  unfold onCadenceChanged_start, onCadenceChanged.
  destruct (gt (Math_abs (newBPM - currentBPM s)) 2);
    [| apply settleLoad_nothing_new; reflexivity].
  destruct (isPlaying (set_currentBPM (Math_round newBPM) s) && _).
  - exact (settleLoad_start _ p (set_currentBPM (Math_round newBPM) s)).
  - destruct (isPlaying (set_currentBPM (Math_round newBPM) s)).
    + apply settleLoad_nothing_new.
      destruct (withoutAudio_adjust
                  (currentBPM (set_currentBPM (Math_round newBPM) s))
                  (set_currentBPM (Math_round newBPM) s)) as [_ L].
      rewrite L. reflexivity.
    + apply settleLoad_nothing_new. reflexivity.
Qed.

Lemma detectSteps_settles magnitude now nowC p s :
  settleLoad (List.length (loadsInFlight s)) p
    (detectSteps_start magnitude now nowC p s)
  = detectSteps magnitude now nowC p s.
Proof.
  unfold detectSteps_start, detectSteps, calculateSpeed_start, calculateSpeed.
  destruct (gt magnitude threshold);
    [| apply settleLoad_nothing_new; reflexivity].
  destruct (300 <? now - lastStepTime s)%Z;
    [| apply settleLoad_nothing_new; reflexivity].
  destruct (1 <? _)%Z; [| apply settleLoad_nothing_new; reflexivity].
  match goal with
  | |- context [onCadenceChanged ?b p ?s1] =>
      exact (onCadenceChanged_settles b p s1)
  end.
Qed.

Lemma handleMotionEvent_settles ev now nowC p s :
  settleLoad (List.length (loadsInFlight s)) p
    (handleMotionEvent_start ev now nowC p s)
  = handleMotionEvent ev now nowC p s.
Proof.
  destruct ev as [acceleration|]; cbn [handleMotionEvent_start handleMotionEvent].
  - apply detectSteps_settles.
  - apply settleLoad_nothing_new. reflexivity.
Qed.

Lemma toggleMusic_settles p s :
  settleLoad (List.length (loadsInFlight s)) p (toggleMusic_start p s)
  = toggleMusic p s.
Proof.
  unfold toggleMusic_start, toggleMusic. destruct (isPlaying s).
  - apply settleLoad_nothing_new.
    destruct (withoutAudio_stop s) as [_ L]. cbn. exact L.
  - exact (settleLoad_start _ p (set_isPlaying true s)).
Qed.

(** So a callback and the callback with its load agree outside the audio
    variables. *)
Lemma handleMotionEvent_start_session ev now nowC p s :
  withoutAudio (handleMotionEvent_start ev now nowC p s)
  = withoutAudio (handleMotionEvent ev now nowC p s).
Proof.
  rewrite <- handleMotionEvent_settles, withoutAudio_settleLoad. reflexivity.
Qed.

Lemma toggleMusic_start_session p s :
  withoutAudio (toggleMusic_start p s) = withoutAudio (toggleMusic p s).
Proof.
  rewrite <- toggleMusic_settles, withoutAudio_settleLoad. reflexivity.
Qed.

(** ** Reacting to a new BPM *)





(** ** Engines and [isPlaying] over a session *)

Lemma reachable_run ops : forall s, reachable s -> reachable (run ops s).
Proof.
  induction ops as [|o ops IH]; intros s H; cbn.
  - exact H.
  - apply IH. constructor. exact H.
Qed.

(** While music is off a motion event starts no load and touches no
    engine. *)
Lemma handleMotionEvent_start_stopped ev now nowC p s :
  isPlaying s = false ->
  let s' := handleMotionEvent_start ev now nowC p s in
  isPlaying s' = false /\ audioSource s' = audioSource s
  /\ currentAudio s' = currentAudio s /\ loadsInFlight s' = loadsInFlight s
  /\ audioContext s' = audioContext s /\ isLoading s' = isLoading s.
Proof.
  intros P. destruct ev as [acceleration|]; cbn; [| repeat split; exact P].
  unfold detectSteps_start, calculateSpeed_start, onCadenceChanged_start.
  cbn. rewrite P. cbn.
  repeat match goal with
         | |- context [if ?b then _ else _] => destruct b
         end; cbn; repeat split; exact P.
Qed.

Lemma step_isPlaying o s :
  match o with
  | OpToggle _ => True
  | _ => isPlaying (step o s) = isPlaying s
  end.
Proof.
  destruct o as [r | | | ev now nowC p | p | k p]; cbn [step]; [| | | | exact I |].
  - destruct (permissionGranted s); [reflexivity |].
    destruct s, r; cbn; unfold startMonitoring; cbn; split_cases; reflexivity.
  - destruct s; unfold demoTimeoutFires; cbn; split_cases; reflexivity.
  - destruct s; unfold demoTick; cbn; split_cases; reflexivity.
  - destruct (isMonitoring s); [| reflexivity].
    destruct (withoutAudio_fields _ _
                (handleMotionEvent_start_session ev now nowC p s))
      as (_ & _ & _ & _ & H & _).
    rewrite H. destruct ev as [acceleration|]; [| reflexivity].
    cbn [handleMotionEvent]. unfold detectSteps.
    destruct (gt _ threshold); [| reflexivity].
    destruct (300 <? _)%Z; [| reflexivity].
    match goal with
    | |- context [calculateSpeed nowC p ?s1] =>
        destruct (calculateSpeed_frame nowC p s1) as (_ & _ & F & _)
    end.
    exact F.
  - destruct (withoutAudio_fields _ _ (withoutAudio_settleLoad k p s))
      as (_ & _ & _ & _ & H & _).
    exact H.
Qed.



(** The gain node exists exactly when the context does. *)
Lemma reachable_gain s : reachable s -> gainNode s = audioContext s.
Proof.
  induction 1 as [|o s _ IH]; [reflexivity |].
  destruct o as [r | | | ev now nowC p | p | k p]; cbn [step].
  - destruct (permissionGranted s); [exact IH |].
    destruct s, r; cbn in *; unfold startMonitoring; cbn;
      split_cases; exact IH.
  - destruct s; unfold demoTimeoutFires; cbn in *; split_cases; exact IH.
  - destruct s; unfold demoTick; cbn in *; split_cases; exact IH.
  - destruct (isMonitoring s); [| exact IH].
    destruct ev as [acceleration|]; cbn; [| exact IH].
    unfold detectSteps_start, calculateSpeed_start, onCadenceChanged_start,
      loadAndPlayAudio_start.
    destruct s as [? ? ? ? ? ? ? ? ? el ctx src gain ? ? ? ?].
    cbn in IH. subst. unfold_playback. cbn.
    repeat match goal with
           | |- context [if ?b then _ else _] => destruct b
           | |- context [match ?x with _ => _ end] => destruct x
           end; reflexivity.
  - destruct (isLoading s); [exact IH |].
    unfold toggleMusic_start, loadAndPlayAudio_start.
    destruct s as [? ? ? ? ? ? ? ? ? el ctx src gain ? ? ? ?].
    cbn in IH. subst. unfold_playback. cbn.
    repeat match goal with
           | |- context [if ?b then _ else _] => destruct b
           | |- context [match ?x with _ => _ end] => destruct x
           end; reflexivity.
  - unfold settleLoad. destruct (nth_error (loadsInFlight s) k); [| exact IH].
    destruct s as [? ? ? ? ? ? ? ? ? el ctx src gain ? ? ? ?].
    cbn in IH. subst. unfold_playback. cbn.
    repeat match goal with
           | |- context [if ?b then _ else _] => destruct b
           | |- context [match ?x with _ => _ end] => destruct x
           end; reflexivity.
Qed.


(** The other way to miss "exactly one": a track switch that succeeds while
    the streaming element plays starts the buffered source and leaves the
    element playing. *)
Lemma two_engines_reachable :
  let fallback := mkPlatform true false PlayStarts in
  let buffered := mkPlatform true true PlayStarts in
  let hit := Some (mkAccel (Some 0) (Some 11) None) in
  let s := run [ OpRequestPermission Granted;
                 OpToggle fallback; OpSettle 0 fallback;
                 OpMotion hit 1000000 1000000 buffered;
                 OpMotion hit 1000500 1000500 buffered;
                 OpSettle 0 buffered ] initialState in
  reachable s /\ isPlaying s = true /\ activeEngines s = 2%nat.
Proof.
  split; [apply reachable_run, reach_init | vm_compute; split; reflexivity].
Qed.



(** ** Demo generator *)

(** After 54 runs the captured variables are back at their start. *)
Lemma demoAfter_period : demoAfter 54 = demoAfter 0.
Proof. vm_compute. reflexivity. Qed.

Lemma demoAfter_plus_period k : demoAfter (k + 54) = demoAfter k.
Proof.
  unfold demoAfter. rewrite Nat.iter_add.
  change (Nat.iter 54 demoAdvance (0.5, true)) with (demoAfter 54).
  rewrite demoAfter_period. reflexivity.
Qed.

Lemma demoAfter_mod k : demoAfter k = demoAfter (k mod 54).
Proof.
  rewrite (Nat.div_mod_eq k 54) at 1.
  generalize (k / 54)%nat as q. generalize (k mod 54)%nat as r. intros r q.
  induction q as [|q IH].
  - replace (54 * 0 + r)%nat with r by lia. reflexivity.
  - replace (54 * S q + r)%nat with ((54 * q + r) + 54)%nat by lia.
    rewrite demoAfter_plus_period. exact IH.
Qed.

Lemma demoAfter_first_period :
  forallb (fun k => inDemoBand (fst (demoAfter k))) (seq 0 54) = true.
Proof. vm_compute. reflexivity. Qed.

(** The generator's value never leaves the band it sweeps. *)
Lemma demoAfter_band k : inDemoBand (fst (demoAfter k)) = true.
Proof.
  rewrite demoAfter_mod.
  pose proof demoAfter_first_period as H.
  rewrite forallb_forall in H. apply H.
  apply in_seq. pose proof (Nat.mod_upper_bound k 54). lia.
Qed.

(** The band is tight: both ends are reached, the upper one by the 26th
    run and the lower one by the 53rd. *)
Lemma demoAfter_extremes :
  demoAfter 26 = (demoHigh, false) /\ demoAfter 53 = (demoLow, true)
  /\ demoAfter 25 = (1.7500000000000011, true)
  /\ demoAfter 52 = (0.5, false).
Proof. vm_compute. repeat split. Qed.

Lemma step_demoRunning o s : demoRunning s -> demoRunning (step o s).
Proof.
  intros [k Hk]. destruct o as [r | | | ev now nowC p | p | n p]; cbn [step].
  - exists k. rewrite <- Hk.
    destruct (permissionGranted s); [reflexivity |].
    destruct s, r; cbn; unfold startMonitoring; cbn;
      split_cases; reflexivity.
  - unfold demoTimeoutFires.
    destruct (demoTimeout s); [| exists k; exact Hk].
    destruct (negb _ && _).
    + exists 0%nat. reflexivity.
    + exists k. exact Hk.
  - exists (S k). unfold demoTick. rewrite Hk. reflexivity.
  - exists k. rewrite <- Hk.
    destruct (isMonitoring s); [| reflexivity].
    destruct (withoutAudio_fields _ _
                (handleMotionEvent_start_session ev now nowC p s))
      as (_ & _ & _ & _ & _ & _ & _ & _ & _ & _ & H).
    rewrite H.
    destruct ev as [acceleration|]; cbn [handleMotionEvent]; [| reflexivity].
    unfold detectSteps.
    destruct (gt _ threshold); [| reflexivity].
    destruct (300 <? _)%Z; [| reflexivity].
    match goal with
    | |- context [calculateSpeed nowC p ?s1] =>
        destruct (calculateSpeed_frame nowC p s1) as (_ & _ & _ & F & _)
    end.
    rewrite F. reflexivity.
  - exists k. rewrite <- Hk.
    destruct (isLoading s); [reflexivity |].
    destruct (withoutAudio_fields _ _ (toggleMusic_start_session p s))
      as (_ & _ & _ & _ & _ & _ & _ & _ & _ & _ & H).
    rewrite H.
    unfold toggleMusic. destruct (isPlaying s).
    + destruct s as [? ? ? ? ? ? ? ? ? el ? src ? ? ? ? ?].
      destruct src, el; reflexivity.
    + match goal with
      | |- context [loadAndPlayAudio ?t p ?s1] =>
          destruct (loadAndPlayAudio_frame t p s1)
            as (_ & _ & _ & _ & _ & _ & F & _)
      end.
      rewrite F. reflexivity.
  - exists k. rewrite <- Hk.
    destruct (withoutAudio_fields _ _ (withoutAudio_settleLoad n p s))
      as (_ & _ & _ & _ & _ & _ & _ & _ & _ & _ & H).
    exact H.
Qed.

Lemma run_demoRunning ops : forall s, demoRunning s -> demoRunning (run ops s).
Proof.
  induction ops as [|o ops IH]; intros s H; cbn.
  - exact H.
  - apply IH, step_demoRunning, H.
Qed.

(** C10 fails on the script: the 53rd tick of the generator sets the speed
    to 0.45, below 0.5, and the 26th to a value above 1.8. *)
Lemma demo_speed_leaves_stated_bounds :
  let started := run [OpRequestPermission Granted; OpDemoTimeout] initialState in
  let low := run (repeat OpDemoTick 53) started in
  let high := run (repeat OpDemoTick 26) started in
  isDemoMode started = true
  /\ speed low = 0.45 /\ (speed low <? 0.5) = true
  /\ speed high = 1.8000000000000012 /\ (1.8 <? speed high) = true
  /\ currentBPM low = 98 /\ currentBPM high = 152.
Proof. vm_compute. repeat split. Qed.

(** C10 as amended: once demo mode has started, whatever else the page
    does between the ticks, every tick leaves the speed between 0.45 and
    1.8000000000000012 and sets bpm = round(80 + speed * 40).  The value
    moves by 0.05 a tick, turns after it has passed 1.8 or fallen below
    0.5, and repeats every 54 ticks. *)
Theorem demo_tick_speed_band :
  forall (ops : list Op) (s : State),
    let s' := step OpDemoTick (run ops (startDemoMode s)) in
    (0.45 <=? speed s') = true
    /\ (speed s' <=? 1.8000000000000012) = true
    /\ currentBPM s' = Math_round (80 + speed s' * 40)
    /\ (exists k, demoTimer s' = Some (demoAfter k)
                  /\ speed s' = fst (demoAfter k))
    /\ (forall v, demoAdvance (v, true)
                  = (v + 0.05, if 1.8 <? v + 0.05 then false else true))
    /\ (forall v, demoAdvance (v, false)
                  = (v - 0.05, if v - 0.05 <? 0.5 then true else false))
    /\ (forall k, demoAfter (k + 54) = demoAfter k).
Proof.
  intros ops s.
  assert (demoRunning (run ops (startDemoMode s))) as [k Hk]
      by (apply run_demoRunning; exists 0%nat; reflexivity).
  cbn [step]. unfold demoTick. rewrite Hk.
  change (demoAdvance (demoAfter k)) with (demoAfter (S k)).
  cbn [speed currentBPM demoTimer set_currentBPM set_speed set_demoTimer].
  pose proof (demoAfter_band (S k)) as B.
  unfold inDemoBand, demoLow, demoHigh in B.
  apply andb_true_iff in B. destruct B as [Bl Bh].
  repeat split; try assumption.
  - exists (S k). split; reflexivity.
  - apply demoAfter_plus_period.
Qed.

(** ** The order of binary64 numbers *)

Lemma leb_compare x y :
  (x <=? y) = match x ?= y with FLt | FEq => true | _ => false end.
Proof.
  rewrite FloatAxioms.leb_spec, FloatAxioms.compare_spec. unfold SFleb.
  destruct (SFcompare (Prim2SF x) (Prim2SF y)) as [[| |]|]; reflexivity.
Qed.

Lemma SFcompare_lt_trans x y z :
  SFcompare x y = Some Lt -> SFcompare y z = Some Lt ->
  SFcompare x z = Some Lt.
Proof.
  destruct x as [[|]|[|]| |[|] mx ex], y as [[|]|[|]| |[|] my ey],
           z as [[|]|[|]| |[|] mz ez];
    cbn [SFcompare]; try discriminate; try reflexivity;
    change (Pos.compare_cont Eq mx my) with (Pos.compare mx my);
    change (Pos.compare_cont Eq my mz) with (Pos.compare my mz);
    change (Pos.compare_cont Eq mx mz) with (Pos.compare mx mz);
    destruct (Z.compare_spec ex ey), (Z.compare_spec ey ez),
      (Z.compare_spec ex ez); try discriminate; try reflexivity; try lia;
    destruct (Pos.compare_spec mx my), (Pos.compare_spec my mz),
      (Pos.compare_spec mx mz); cbn [CompOpp];
    try discriminate; try reflexivity; try lia.
Qed.

Lemma ltb_trans x y z :
  (x <? y) = true -> (y <? z) = true -> (x <? z) = true.
Proof.
  rewrite !FloatAxioms.ltb_spec. unfold SFltb. intros H1 H2.
  assert (SFcompare (Prim2SF x) (Prim2SF y) = Some Lt) as E1
      by (destruct (SFcompare (Prim2SF x) (Prim2SF y)) as [[| |]|];
          congruence).
  assert (SFcompare (Prim2SF y) (Prim2SF z) = Some Lt) as E2
      by (destruct (SFcompare (Prim2SF y) (Prim2SF z)) as [[| |]|];
          congruence).
  rewrite (SFcompare_lt_trans _ _ _ E1 E2). reflexivity.
Qed.

Lemma ltb_not_leb x y : (x <? y) = true -> (y <=? x) = false.
Proof.
  rewrite ltb_compare, leb_compare, (compare_swap x y).
  destruct (x ?= y); cbn; congruence.
Qed.

Lemma leb_not_ltb x y : (x <=? y) = true -> (y <? x) = false.
Proof.
  rewrite ltb_compare, leb_compare, (compare_swap x y).
  destruct (x ?= y); cbn; congruence.
Qed.

Lemma compare_nan_l y : (nan ?= y) = FNotComparable.
Proof. rewrite FloatAxioms.compare_spec. reflexivity. Qed.

Lemma compare_nan_r x : (x ?= nan) = FNotComparable.
Proof.
  rewrite FloatAxioms.compare_spec.
  change (Prim2SF nan) with S754_nan.
  destruct (Prim2SF x) as [[|]|[|]| |[|] ? ?]; reflexivity.
Qed.

(** Two numbers are ordered one way or the other unless one is NaN. *)
Lemma not_ltb_leb x y :
  x <> nan -> y <> nan -> (x <? y) = false -> (y <=? x) = true.
Proof.
  intros Hx Hy. rewrite ltb_compare, leb_compare, (compare_swap x y).
  destruct (x ?= y) eqn:C; cbn; try congruence.
  destruct (compare_notcomparable _ _ C); contradiction.
Qed.

Lemma leb_not_nan x y : (x <=? y) = true -> x <> nan /\ y <> nan.
Proof.
  rewrite leb_compare. intros H. split; intros ->.
  - rewrite compare_nan_l in H. discriminate.
  - rewrite compare_nan_r in H. discriminate.
Qed.

Lemma ltb_not_nan x y : (x <? y) = true -> x <> nan /\ y <> nan.
Proof.
  rewrite ltb_compare. intros H. split; intros ->.
  - rewrite compare_nan_l in H. discriminate.
  - rewrite compare_nan_r in H. discriminate.
Qed.

(** Below a bound [lo], a number is not at or above a finite [hi >= lo]. *)
Lemma at_least_not_below lo hi x s m e :
  Prim2SF hi = S754_finite s m e ->
  (lo <=? hi) = true -> (hi <=? x) = true -> (x <? lo) = false.
Proof.
  intros Hfin Hlh Hx. destruct (x <? lo) eqn:L; [| reflexivity].
  rewrite leb_compare in Hx. destruct (hi ?= x) eqn:C; try discriminate.
  - apply (compare_eq_finite hi x s m e Hfin) in C. subst x.
    rewrite (ltb_not_leb _ _ L) in Hlh. discriminate.
  - assert ((hi <? lo) = true) as T
        by (apply (ltb_trans hi x lo); [rewrite ltb_compare, C |]; auto).
    rewrite (ltb_not_leb _ _ T) in Hlh. discriminate.
Qed.

(** A number below [lo] is not at or above any [hi] that [lo] is below. *)
Lemma below_not_at_least lo hi x :
  (lo <? hi) = true -> (x <? lo) = true -> (hi <=? x) = false.
Proof.
  intros Hlh Hx. apply ltb_not_leb. apply (ltb_trans x lo hi); assumption.
Qed.

(** The ranges of two catalog entries never share a BPM. *)
Lemma catalog_ranges_disjoint bpm a b :
  In a musicTracks -> In b musicTracks ->
  inRange bpm a = true -> inRange bpm b = true -> a = b.
Proof.
  intros Ha Hb. cbn in Ha, Hb.
  repeat (destruct Ha as [<- | Ha]; [| try contradiction]);
    repeat (destruct Hb as [<- | Hb]; [| try contradiction]);
    unfold inRange, ge; cbn [minBPM maxBPM]; try reflexivity;
    intros Ra Rb; apply andb_true_iff in Ra, Rb;
    destruct Ra as [Ra1 Ra2], Rb as [Rb1 Rb2]; exfalso;
    match goal with
    | L : (bpm <? ?lo) = true, G : (?hi <=? bpm) = true |- _ =>
        assert ((bpm <? lo) = false)
          by (eapply (at_least_not_below lo hi bpm);
              [reflexivity | reflexivity | exact G]);
        congruence
    end.
Qed.

(** X17: every catalog entry in range is the selected one; inside [0, 200) the
    selected entry is in range; outside, and for NaN, no entry is in range
    and the first entry is returned. *)
Theorem catalog_covers_zero_to_200 :
  (forall bpm track,
      In track musicTracks -> inRange bpm track = true ->
      getMatchingTrack bpm = track)
  /\ (forall bpm,
         (0 <=? bpm) = true -> (bpm <? 200) = true ->
         inRange bpm (getMatchingTrack bpm) = true)
  /\ (forall bpm,
         (0 <=? bpm) && (bpm <? 200) = false ->
         find (inRange bpm) musicTracks = None
         /\ getMatchingTrack bpm = firstTrack).
Proof.
  split; [| split].
  - intros bpm track Hin Hr.
    pose proof (getMatchingTrack_in_catalog bpm) as Hsel.
    apply (catalog_ranges_disjoint bpm); auto.
    unfold getMatchingTrack in *.
    destruct (find (inRange bpm) musicTracks) as [t|] eqn:F.
    + apply find_some in F. tauto.
    + rewrite (find_none _ _ F track Hin) in Hr. discriminate.
  - intros bpm Hlo Hhi. unfold getMatchingTrack.
    destruct (find (inRange bpm) musicTracks) as [t|] eqn:F.
    + apply find_some in F. tauto.
    + exfalso.
      destruct (leb_not_nan _ _ Hlo) as [_ Hn].
      assert (forall lo hi, lo <> nan -> hi <> nan ->
                (lo <=? bpm) = true ->
                (lo <=? bpm) && (bpm <? hi) = false -> (hi <=? bpm) = true)
        as Next.
      { intros lo hi Hl Hh A B. rewrite A in B. cbn in B.
        apply not_ltb_leb; auto. }
      pose proof (find_none _ _ F) as N. cbn in N.
      assert (forall a b c d e f, inRange bpm (mkTrack a b c d e f)
                                  = (a <=? bpm) && (bpm <? b)) as IR
          by reflexivity.
      pose proof (N _ (or_introl eq_refl)) as N1. rewrite IR in N1.
      pose proof (N _ (or_intror (or_introl eq_refl))) as N2. rewrite IR in N2.
      pose proof (N _ (or_intror (or_intror (or_introl eq_refl)))) as N3.
      rewrite IR in N3.
      pose proof (N _ (or_intror (or_intror (or_intror (or_introl eq_refl)))))
        as N4. rewrite IR in N4.
      pose proof (N _ (or_intror (or_intror (or_intror (or_intror
                                    (or_introl eq_refl)))))) as N5.
      rewrite IR in N5.
      assert (forall c : float, (c =? c) = true -> c <> nan) as NN
          by (intros c Hc ->; vm_compute in Hc; discriminate).
      assert ((90 <=? bpm) = true) as G1
          by (apply (Next 0 90); auto; apply NN; reflexivity).
      assert ((110 <=? bpm) = true) as G2
          by (apply (Next 90 110); auto; apply NN; reflexivity).
      assert ((130 <=? bpm) = true) as G3
          by (apply (Next 110 130); auto; apply NN; reflexivity).
      assert ((150 <=? bpm) = true) as G4
          by (apply (Next 130 150); auto; apply NN; reflexivity).
      assert ((200 <=? bpm) = true) as G5
          by (apply (Next 150 200); auto; apply NN; reflexivity).
      rewrite (leb_not_ltb _ _ G5) in Hhi. discriminate.
  - intros bpm Hout.
    assert (find (inRange bpm) musicTracks = None) as F.
    { destruct (find (inRange bpm) musicTracks) as [t|] eqn:F; [| reflexivity].
      exfalso. apply find_some in F. destruct F as [Hin Hr].
      cbn in Hin.
      apply andb_false_iff in Hout. destruct Hout as [Hlo | Hhi].
      - (* not at or above 0: nothing starts at or below it *)
        assert (forall lo, (0 <? lo) = true -> (lo <=? bpm) = false) as Up.
        { intros lo Hl. destruct (lo <=? bpm) eqn:G; [| reflexivity].
          destruct (leb_not_nan _ _ G) as [_ Hn].
          assert ((bpm <? 0) = true) as B.
          { destruct (bpm <? 0) eqn:B; [reflexivity |].
            rewrite (not_ltb_leb bpm 0) in Hlo; auto.
            intros E; vm_compute in E; discriminate. }
          rewrite (below_not_at_least 0 lo bpm Hl B) in G. discriminate. }
        repeat (destruct Hin as [<- | Hin]; [| try contradiction]);
          unfold inRange, ge in Hr; cbn [minBPM maxBPM] in Hr;
          apply andb_true_iff in Hr; destruct Hr as [R1 R2];
          first [ congruence
                | rewrite Up in R1; [discriminate | reflexivity] ].
      - (* not below 200: every range ends at or below 200 *)
        repeat (destruct Hin as [<- | Hin]; [| try contradiction]);
          unfold inRange, ge in Hr; cbn [minBPM maxBPM] in Hr;
          apply andb_true_iff in Hr; destruct Hr as [R1 R2];
          first [ congruence
                | assert ((bpm <? 200) = true)
                    by (eapply ltb_trans; [exact R2 | reflexivity]);
                  congruence ]. }
    split; [exact F |]. unfold getMatchingTrack. rewrite F. reflexivity.
Qed.

(** ** Permission gate *)

Lemma gated_same s s' :
  gated s ->
  isMonitoring s' = isMonitoring s ->
  permissionGranted s' = permissionGranted s ->
  isDemoMode s' = isDemoMode s ->
  permissionStatus s' = permissionStatus s ->
  steps s' = steps s -> lastStepTime s' = lastStepTime s ->
  speed s' = speed s -> currentBPM s' = currentBPM s ->
  demoTimer s' = demoTimer s -> demoTimeout s' = demoTimeout s ->
  gated s'.
Proof.
  unfold gated. intros H E1 E2 E3 E4 E5 E6 E7 E8 E9 E10.
  rewrite E1, E2, E3, E4, E5, E6, E7, E8, E9, E10. exact H.
Qed.

Ltac gated_goals := unfold gated; split; [| split; [| split]].

Lemma requestPermission_gated r s :
  permissionGranted s = false -> gated s -> gated (requestPermission r s).
Proof.
  intros G (Hm & Hd & Hs & Hn).
  destruct (Hn G) as (N1 & N2 & N3 & N4 & N5 & N6).
  assert (isDemoMode s = false) as D
      by (destruct (isDemoMode s); [now rewrite Hd in G | reflexivity]).
  rewrite G in Hm.
  destruct s; cbn in *; subst.
  destruct r; gated_goals; cbn; try reflexivity; try discriminate;
    try (split; discriminate); intros; repeat split; reflexivity.
Qed.

Lemma demoTimeoutFires_gated s : gated s -> gated (demoTimeoutFires s).
Proof.
  intros H. unfold demoTimeoutFires.
  destruct (demoTimeout s) eqn:T; [| exact H].
  destruct H as (Hm & Hd & Hs & Hn).
  destruct (permissionGranted s) eqn:G;
    [| destruct (Hn eq_refl) as (_ & _ & _ & _ & _ & N6); congruence].
  destruct (negb (isDemoMode (set_demoTimeout false s))
            && (speed (set_demoTimeout false s) =? 0)).
  - destruct s; cbn in *; subst.
    gated_goals; cbn; try reflexivity; try discriminate.
    split; reflexivity.
  - destruct s; cbn in *; subst.
    gated_goals; cbn; try reflexivity; try discriminate; assumption.
Qed.

Lemma demoTick_gated s : gated s -> gated (demoTick s).
Proof.
  intros H. unfold demoTick.
  destruct (demoTimer s) as [d|] eqn:T; [| exact H].
  destruct H as (Hm & Hd & Hs & Hn).
  destruct (permissionGranted s) eqn:G;
    [| destruct (Hn eq_refl) as (_ & _ & _ & _ & N5 & _); congruence].
  destruct s; cbn in *; subst.
  gated_goals; cbn; try reflexivity; try discriminate; assumption.
Qed.

Lemma loadAndPlayAudio_status track p s :
  permissionStatus (loadAndPlayAudio track p s) = permissionStatus s.
Proof. destruct s. unfold_playback. cbn. split_cases; reflexivity. Qed.

Lemma adjustPlaybackSpeed_status bpm s :
  permissionStatus (adjustPlaybackSpeed bpm s) = permissionStatus s.
Proof. destruct s. unfold_playback. cbn. split_cases; reflexivity. Qed.

Lemma detectSteps_status magnitude now nowC p s :
  permissionStatus (detectSteps magnitude now nowC p s) = permissionStatus s.
Proof.
  unfold detectSteps, calculateSpeed, onCadenceChanged.
  repeat match goal with
         | |- context [if ?b then _ else _] => destruct b
         end;
    rewrite ?loadAndPlayAudio_status, ?adjustPlaybackSpeed_status;
    reflexivity.
Qed.

Lemma detectSteps_gated magnitude now nowC p s :
  permissionGranted s = true -> gated s ->
  gated (detectSteps magnitude now nowC p s).
Proof.
  intros G H. pose proof H as (Hm & Hd & Hs & Hn).
  pose proof (detectSteps_status magnitude now nowC p s) as F8.
  unfold detectSteps in *.
  destruct (gt magnitude threshold); [| exact H].
  destruct (300 <? now - lastStepTime s)%Z; [| exact H].
  match goal with
  | |- context [calculateSpeed nowC p ?s1] =>
      destruct (calculateSpeed_frame nowC p s1)
        as (_ & _ & _ & _ & F5 & F6 & F7 & _)
  end.
  cbn in F5, F6, F7.
  gated_goals; rewrite ?F5, ?F6, ?F7, ?F8; try assumption.
  rewrite G. discriminate.
Qed.

Lemma toggleMusic_gated p s : gated s -> gated (toggleMusic p s).
Proof.
  intros H. apply (gated_same s); [exact H | ..];
    destruct s; unfold toggleMusic; unfold_playback; cbn;
    split_cases; reflexivity.
Qed.

Lemma gated_session a b : withoutAudio a = withoutAudio b -> gated b -> gated a.
Proof.
  intros E H.
  destruct (withoutAudio_fields a b E)
    as (E1 & E2 & E3 & E4 & E5 & E6 & E7 & E8 & E9 & E10 & E11).
  apply (gated_same b); assumption.
Qed.

Lemma step_gated o s : gated s -> gated (step o s).
Proof.
  intros H. destruct o as [r | | | ev now nowC p | p | k p]; cbn [step].
  - destruct (permissionGranted s) eqn:G; [exact H |].
    apply requestPermission_gated; assumption.
  - apply demoTimeoutFires_gated, H.
  - apply demoTick_gated, H.
  - destruct (isMonitoring s) eqn:M; [| exact H].
    apply (gated_session _ _ (handleMotionEvent_start_session ev now nowC p s)).
    destruct ev as [acceleration|]; cbn [handleMotionEvent]; [| exact H].
    apply detectSteps_gated; [| exact H].
    destruct H as (Hm & _). congruence.
  - destruct (isLoading s); [exact H |].
    apply (gated_session _ _ (toggleMusic_start_session p s)).
    apply toggleMusic_gated, H.
  - apply (gated_session _ _ (withoutAudio_settleLoad k p s)). exact H.
Qed.

Lemma reachable_gated s : reachable s -> gated s.
Proof.
  induction 1 as [|o s _ IH].
  - gated_goals; cbn; try reflexivity; try discriminate.
    + split; discriminate.
    + intros _. repeat split; reflexivity.
  - apply step_gated. exact IH.
Qed.

(** X1: without permission nothing is monitored: no step is counted, no speed
    or BPM is set and the demo generator is off; monitoring runs exactly
    when permission was granted, and demo mode only with permission. *)
Theorem no_permission_no_motion s :
  reachable s ->
  isMonitoring s = permissionGranted s
  /\ (isDemoMode s = true -> permissionGranted s = true)
  /\ (permissionGranted s = false ->
      steps s = 0%Z /\ lastStepTime s = 0%Z /\ speed s = 0
      /\ currentBPM s = 0 /\ isDemoMode s = false /\ demoTimer s = None).
Proof.
  intros Hr. destruct (reachable_gated s Hr) as (Hm & Hd & Hs & Hn).
  split; [exact Hm | split; [exact Hd |]].
  intros G. destruct (Hn G) as (N1 & N2 & N3 & N4 & N5 & N6).
  repeat split; auto.
  destruct (isDemoMode s); [rewrite Hd in G; [discriminate | reflexivity] |].
  reflexivity.
Qed.

Lemma no_permission_no_motion_witness :
  let s := run [OpRequestPermission Denied;
                OpMotion (Some (mkAccel (Some 0) (Some 11) None))
                  1000000 1000000 (mkPlatform true true PlayStarts);
                OpDemoTimeout; OpDemoTick] initialState in
  isMonitoring s = permissionGranted s
  /\ (isDemoMode s = true -> permissionGranted s = true)
  /\ (permissionGranted s = false ->
      steps s = 0%Z /\ lastStepTime s = 0%Z /\ speed s = 0
      /\ currentBPM s = 0 /\ isDemoMode s = false /\ demoTimer s = None).
Proof.
  exact (no_permission_no_motion _ (reachable_run _ _ reach_init)).
Defined.

(** X2: the permission button: its text says which of three states the page
    is in, its colour agrees with its text, and it can be pressed exactly
    while it reads "Enable Motion Sensor". *)
Theorem permission_button_states s :
  reachable s ->
  (permissionButtonText s = "Enable Motion Sensor"%string
   <-> permissionButtonDisabled s = false)
  /\ (permissionButtonText s = "Demo Active"%string <-> isDemoMode s = true)
  /\ (permissionButtonText s = "Sensor Active"%string
      <-> permissionGranted s = true /\ isDemoMode s = false)
  /\ (permissionButtonClass s = "bg-orange-400 hover:bg-orange-500"%string
      <-> permissionButtonText s = "Enable Motion Sensor"%string)
  /\ (permissionButtonClass s = "bg-blue-500 hover:bg-blue-600"%string
      <-> permissionButtonText s = "Demo Active"%string)
  /\ (permissionButtonClass s = "bg-green-500 hover:bg-green-600"%string
      <-> permissionButtonText s = "Sensor Active"%string)
  /\ (permissionStatus s = "Demo mode (simulated motion)"%string
      <-> permissionButtonText s = "Demo Active"%string).
Proof.
  intros Hr. destruct (reachable_gated s Hr) as (_ & Hd & Hs & _).
  unfold permissionButtonText, permissionButtonClass,
    permissionButtonDisabled.
  destruct (permissionGranted s), (isDemoMode s) eqn:D; cbn;
    try (specialize (Hd eq_refl); discriminate);
    repeat split; try discriminate; try reflexivity;
    try (intros [? ?]; discriminate);
    try (intros _; apply Hs; reflexivity);
    try (intros E; apply Hs in E; discriminate).
Qed.

Lemma permission_button_states_witness :
  let s := run [OpRequestPermission Granted; OpDemoTimeout] initialState in
  (permissionButtonText s = "Enable Motion Sensor"%string
   <-> permissionButtonDisabled s = false)
  /\ (permissionButtonText s = "Demo Active"%string <-> isDemoMode s = true)
  /\ (permissionButtonText s = "Sensor Active"%string
      <-> permissionGranted s = true /\ isDemoMode s = false)
  /\ (permissionButtonClass s = "bg-orange-400 hover:bg-orange-500"%string
      <-> permissionButtonText s = "Enable Motion Sensor"%string)
  /\ (permissionButtonClass s = "bg-blue-500 hover:bg-blue-600"%string
      <-> permissionButtonText s = "Demo Active"%string)
  /\ (permissionButtonClass s = "bg-green-500 hover:bg-green-600"%string
      <-> permissionButtonText s = "Sensor Active"%string)
  /\ (permissionStatus s = "Demo mode (simulated motion)"%string
      <-> permissionButtonText s = "Demo Active"%string).
Proof.
  exact (permission_button_states _ (reachable_run _ _ reach_init)).
Defined.

(** ** What the callbacks leave alone *)

(** The cadence variables and session flags a playback operation or a
    permission, timeout or tick callback does not write. *)
Lemma step_steps o s :
  steps (step o s) = steps s
  \/ (exists ev now nowC p, o = OpMotion ev now nowC p)
     /\ steps (step o s) = (steps s + 1)%Z.
Proof.
  destruct o as [r | | | ev now nowC p | p | k p]; cbn [step].
  - left. destruct (permissionGranted s); [reflexivity |].
    destruct s, r; cbn; unfold startMonitoring; cbn;
      split_cases; reflexivity.
  - left. destruct s; unfold demoTimeoutFires; cbn; split_cases; reflexivity.
  - left. destruct s; unfold demoTick; cbn; split_cases; reflexivity.
  - destruct (isMonitoring s); [| left; reflexivity].
    destruct (withoutAudio_fields _ _
                (handleMotionEvent_start_session ev now nowC p s))
      as (_ & _ & H & _).
    rewrite H.
    destruct ev as [acceleration|]; cbn [handleMotionEvent];
      [| left; reflexivity].
    destruct (detectSteps_counter (magnitudeOf acceleration) now nowC p s)
      as [Hs _].
    cbn zeta in Hs. rewrite Hs.
    destruct (gt _ threshold && _); [right | left; reflexivity].
    split; [eauto | reflexivity].
  - left. destruct (isLoading s); [reflexivity |].
    destruct (withoutAudio_fields _ _ (toggleMusic_start_session p s))
      as (_ & _ & H & _).
    rewrite H.
    destruct s; unfold toggleMusic; unfold_playback; cbn;
      split_cases; reflexivity.
  - left.
    destruct (withoutAudio_fields _ _ (withoutAudio_settleLoad k p s))
      as (_ & _ & H & _).
    exact H.
Qed.

(** X3: the step counter never goes down, and a session raises it by at most
    the number of motion events it delivers. *)
Theorem step_counter_bounded :
  forall (ops : list Op) (s : State),
    (steps s <= steps (run ops s) <= steps s + Z.of_nat (motionEvents ops))%Z.
Proof.
  induction ops as [|o ops IH]; intros s.
  - cbn. lia.
  - cbn [run fold_left]. specialize (IH (step o s)). fold (run ops (step o s)).
    destruct (step_steps o s) as [E | [(ev & now & nowC & p & ->) E]].
    + rewrite E in IH.
      assert (motionEvents ops <= motionEvents (o :: ops))%nat
        by (destruct o; cbn; lia).
      lia.
    + rewrite E in IH. cbn [motionEvents]. lia.
Qed.

Lemma loadAndPlayAudio_context track p s :
  audioContext s = true -> audioContext (loadAndPlayAudio track p s) = true.
Proof.
  destruct s. unfold_playback. cbn. intros ->. split_cases; reflexivity.
Qed.

Lemma adjustPlaybackSpeed_context bpm s :
  audioContext (adjustPlaybackSpeed bpm s) = audioContext s.
Proof. destruct s. unfold_playback. cbn. split_cases; reflexivity. Qed.

Lemma loadAndPlayAudio_begin_context p s :
  audioContext s = true -> audioContext (loadAndPlayAudio_begin p s) = true.
Proof.
  destruct s. unfold_playback. cbn. intros ->. split_cases; reflexivity.
Qed.

Lemma loadAndPlayAudio_settle_context track p s :
  audioContext (loadAndPlayAudio_settle track p s) = audioContext s.
Proof. destruct s. unfold_playback. cbn. split_cases; reflexivity. Qed.

Lemma step_flags o s :
  (permissionGranted s = true -> permissionGranted (step o s) = true)
  /\ (isMonitoring s = true -> isMonitoring (step o s) = true)
  /\ (isDemoMode s = true -> isDemoMode (step o s) = true)
  /\ (audioContext s = true -> audioContext (step o s) = true).
Proof.
  destruct o as [r | | | ev now nowC p | p | k p]; cbn [step].
  - destruct (permissionGranted s) eqn:G;
      [lazy beta iota; repeat split; intros; congruence |].
    destruct s, r; cbn in *; unfold startMonitoring; cbn;
      split_cases; cbn; intuition congruence.
  - destruct s; unfold demoTimeoutFires; cbn; split_cases; cbn;
      intuition congruence.
  - destruct s; unfold demoTick; cbn; split_cases; cbn; intuition congruence.
  - destruct (isMonitoring s) eqn:M;
      [| lazy beta iota; repeat split; intros; congruence].
    destruct (withoutAudio_fields _ _
                (handleMotionEvent_start_session ev now nowC p s))
      as (E1 & E2 & _ & _ & _ & _ & _ & _ & E3 & _).
    rewrite E1, E2, E3.
    assert (permissionGranted (handleMotionEvent ev now nowC p s)
            = permissionGranted s
            /\ isMonitoring (handleMotionEvent ev now nowC p s)
               = isMonitoring s
            /\ isDemoMode (handleMotionEvent ev now nowC p s)
               = isDemoMode s) as (F1 & F2 & F3).
    { destruct ev as [acceleration|]; cbn [handleMotionEvent];
        [| repeat split].
      unfold detectSteps.
      destruct (gt _ threshold); [| repeat split].
      destruct (300 <? _)%Z; [| repeat split].
      match goal with
      | |- context [calculateSpeed nowC p ?s1] =>
          destruct (calculateSpeed_frame nowC p s1)
            as (_ & _ & _ & _ & F5 & F6 & F7 & _)
      end.
      cbn in F5, F6, F7. repeat split; assumption. }
    rewrite F1, F2, F3. repeat split; auto.
    intros C. destruct ev as [acceleration|]; cbn; [| exact C].
    unfold detectSteps_start, calculateSpeed_start, onCadenceChanged_start,
      loadAndPlayAudio_start.
    repeat match goal with
           | |- context [if ?b then _ else _] => destruct b
           end;
      cbn [audioContext set_loadsInFlight];
      rewrite ?adjustPlaybackSpeed_context;
      try apply loadAndPlayAudio_begin_context; exact C.
  - destruct (isLoading s);
      [lazy beta iota; repeat split; intros; congruence |].
    destruct (withoutAudio_fields _ _ (toggleMusic_start_session p s))
      as (E1 & E2 & _ & _ & _ & _ & _ & _ & E3 & _).
    rewrite E1, E2, E3.
    assert (audioContext s = true ->
            audioContext (toggleMusic_start p s) = true) as C.
    { unfold toggleMusic_start, loadAndPlayAudio_start.
      destruct s; unfold_playback; cbn; split_cases; cbn;
        intuition congruence. }
    destruct s; unfold toggleMusic; unfold_playback; cbn in *;
      split_cases; cbn; repeat split; auto.
  - destruct (withoutAudio_fields _ _ (withoutAudio_settleLoad k p s))
      as (E1 & E2 & _ & _ & _ & _ & _ & _ & E3 & _).
    rewrite E1, E2, E3. repeat split; auto.
    unfold settleLoad. destruct (nth_error (loadsInFlight s) k); auto.
    rewrite loadAndPlayAudio_settle_context. auto.
Qed.

(** X4: nothing is ever taken back: permission, monitoring, demo mode and the
    audio context, once there, stay for the rest of the session. *)
Theorem session_flags_monotone :
  forall (ops : list Op) (s : State),
    (permissionGranted s = true -> permissionGranted (run ops s) = true)
    /\ (isMonitoring s = true -> isMonitoring (run ops s) = true)
    /\ (isDemoMode s = true -> isDemoMode (run ops s) = true)
    /\ (audioContext s = true -> audioContext (run ops s) = true).
Proof.
  induction ops as [|o ops IH]; intros s.
  - cbn. tauto.
  - cbn [run fold_left]. fold (run ops (step o s)).
    destruct (IH (step o s)) as (I1 & I2 & I3 & I4).
    destruct (step_flags o s) as (S1 & S2 & S3 & S4).
    repeat split; auto.
Qed.

(** X5: only the play button changes [isPlaying].  The permission, timeout and
    tick callbacks never touch an audio engine or start a load, and a
    motion event does so only while music is playing; a load that settles
    writes the engines but not [isPlaying]. *)
Theorem playback_written_by_toggle_only :
  forall (o : Op) (s : State),
    let same := audioSource (step o s) = audioSource s
                /\ currentAudio (step o s) = currentAudio s
                /\ audioContext (step o s) = audioContext s
                /\ isLoading (step o s) = isLoading s
                /\ loadsInFlight (step o s) = loadsInFlight s in
    match o with
    | OpToggle _ =>
        isPlaying (step o s)
        = if isLoading s then isPlaying s else negb (isPlaying s)
    | OpMotion _ _ _ _ =>
        isPlaying (step o s) = isPlaying s /\ (isPlaying s = false -> same)
    | OpSettle _ _ => isPlaying (step o s) = isPlaying s
    | _ => isPlaying (step o s) = isPlaying s /\ same
    end.
Proof.
  intros o s. pose proof (step_isPlaying o s) as E.
  destruct o as [r | | | ev now nowC p | p | k p]; cbn zeta.
  - split; [exact E |]. cbn [step].
    destruct (permissionGranted s); [repeat split |].
    destruct s, r; cbn; unfold startMonitoring; cbn;
      split_cases; repeat split.
  - split; [exact E |]. cbn [step].
    destruct s; unfold demoTimeoutFires; cbn; split_cases; repeat split.
  - split; [exact E |]. cbn [step].
    destruct s; unfold demoTick; cbn; split_cases; repeat split.
  - split; [exact E |]. intros P. cbn [step].
    destruct (isMonitoring s); [| repeat split].
    destruct (handleMotionEvent_start_stopped ev now nowC p s P)
      as (_ & E1 & E2 & E3 & E4 & E5).
    repeat split; assumption.
  - cbn [step]. destruct (isLoading s); [reflexivity |].
    destruct (withoutAudio_fields _ _ (toggleMusic_start_session p s))
      as (_ & _ & _ & _ & H & _).
    rewrite H.
    unfold toggleMusic. destruct (isPlaying s) eqn:P; [reflexivity |].
    match goal with
    | |- context [loadAndPlayAudio ?t p ?s1] =>
        destruct (loadAndPlayAudio_frame t p s1) as (_ & _ & F3 & _)
    end.
    rewrite F3. reflexivity.
  - exact E.
Qed.

(** ** The first step and the demo timeout *)

(** X6: the first accepted step is only counted and stamped: speed, BPM and
    audio stay as they are.  So if nothing but that one step happened
    before the 3000 ms timeout, the speed is still 0 and demo mode
    starts. *)
Theorem first_step_computes_no_cadence magnitude now nowC p s :
  steps s = 0%Z ->
  detectSteps magnitude now nowC p s
  = (if gt magnitude threshold && (300 <? now - lastStepTime s)%Z
     then set_lastStepTime now (set_steps 1 s) else s)
  /\ (speed s = 0 -> isDemoMode s = false -> demoTimeout s = true ->
      isDemoMode (demoTimeoutFires (detectSteps magnitude now nowC p s))
      = true).
Proof.
  intros Hs.
  assert (detectSteps magnitude now nowC p s
          = (if gt magnitude threshold && (300 <? now - lastStepTime s)%Z
             then set_lastStepTime now (set_steps 1 s) else s)) as E.
  { unfold detectSteps, calculateSpeed.
    destruct (gt magnitude threshold); [| reflexivity].
    destruct (300 <? now - lastStepTime s)%Z; [| reflexivity].
    cbn. rewrite Hs. reflexivity. }
  split; [exact E |].
  intros Hv Hd Ht. rewrite E. unfold demoTimeoutFires.
  destruct (gt magnitude threshold && (300 <? now - lastStepTime s)%Z);
    cbn; rewrite Ht; cbn; rewrite Hd, Hv; reflexivity.
Qed.

Lemma first_step_computes_no_cadence_witness :
  let p := mkPlatform true true PlayStarts in
  let s := step (OpRequestPermission Granted) initialState in
  detectSteps 11 1000000 1000000 p s
  = (if gt 11 threshold && (300 <? 1000000 - lastStepTime s)%Z
     then set_lastStepTime 1000000 (set_steps 1 s) else s)
  /\ (speed s = 0 -> isDemoMode s = false -> demoTimeout s = true ->
      isDemoMode (demoTimeoutFires (detectSteps 11 1000000 1000000 p s))
      = true).
Proof.
  exact (first_step_computes_no_cadence 11 1000000 1000000
           (mkPlatform true true PlayStarts)
           (step (OpRequestPermission Granted) initialState) eq_refl).
Defined.

(** ** Motion events without data *)

(** X8: an event without acceleration data changes nothing; an axis that is
    missing, NaN or zero counts as 0; and an event whose three axes are all
    missing has magnitude 0 and is never a step. *)
Theorem motion_event_without_data :
  (forall now nowC p s, handleMotionEvent None now nowC p s = s)
  /\ (forall y z v,
         v = None \/ v = Some nan \/ v = Some 0 \/ v = Some (-0) ->
         magnitudeOf (mkAccel v y z) = magnitudeOf (mkAccel (Some 0) y z)
         /\ magnitudeOf (mkAccel y v z) = magnitudeOf (mkAccel y (Some 0) z)
         /\ magnitudeOf (mkAccel y z v) = magnitudeOf (mkAccel y z (Some 0)))
  /\ magnitudeOf (mkAccel None None None) = 0
  /\ (forall now nowC p s,
         handleMotionEvent (Some (mkAccel None None None)) now nowC p s = s).
Proof.
  repeat split.
  - destruct H as [-> | [-> | [-> | ->]]]; reflexivity.
  - destruct H as [-> | [-> | [-> | ->]]]; reflexivity.
  - destruct H as [-> | [-> | [-> | ->]]]; reflexivity.
Qed.

(** ** Asking for permission again *)

(** X9: a refused or failed request only changes the status line, the button
    stays enabled, and a later grant gives the state a grant would have
    given at once. *)
Theorem permission_can_be_retried r s :
  r = Denied \/ r = RequestThrows ->
  permissionGranted s = false ->
  permissionGranted (requestPermission r s) = false
  /\ permissionButtonDisabled (step (OpRequestPermission r) s) = false
  /\ requestPermission r s
     = set_permissionStatus
         (match r with
          | Denied => "Permission denied"
          | _ => "Error requesting permission"
          end) s
  /\ step (OpRequestPermission Granted) (step (OpRequestPermission r) s)
     = step (OpRequestPermission Granted) s.
Proof.
  intros Hr Hg. destruct s. cbn in Hg. subst.
  destruct Hr as [-> | ->]; cbn; repeat split.
Qed.

Lemma permission_can_be_retried_witness :
  permissionGranted (requestPermission Denied initialState) = false
  /\ permissionButtonDisabled (step (OpRequestPermission Denied) initialState)
     = false
  /\ requestPermission Denied initialState
     = set_permissionStatus "Permission denied" initialState
  /\ step (OpRequestPermission Granted)
       (step (OpRequestPermission Denied) initialState)
     = step (OpRequestPermission Granted) initialState.
Proof.
  exact (permission_can_be_retried Denied initialState
           (or_introl eq_refl) eq_refl).
Defined.

(** ** Starting and stopping *)


(** X11: pressing play while the streaming element is silent, with the load
    settling before anything else happens, starts exactly one engine,
    playing the track the page displays, unless both engines fail; then
    none is active. *)
Theorem toggle_start_engine_count p s :
  isPlaying s = false -> elementActive s = false ->
  let s' := toggleMusic p s in
  sourceActive s' = bufferedStart p s
  /\ elementActive s'
     = negb (bufferedStart p s) && elementPlays (elementOutcome p)
  /\ activeEngines s'
     = (if bufferedStart p s || elementPlays (elementOutcome p)
        then 1 else 0)%nat
  /\ (bufferedStart p s = true ->
      option_map srcBuffer (audioSource s')
      = Some (audioFile (currentTrack s')))
  /\ (bufferedStart p s = false -> elementPlays (elementOutcome p) = true ->
      option_map elSrc (currentAudio s')
      = Some (audioFile (currentTrack s')))
  /\ (isLoading s = false ->
      run [OpToggle p; OpSettle (List.length (loadsInFlight s)) p] s = s').
Proof.
  intros Hp He. cbn zeta.
  assert (isLoading s = false ->
          run [OpToggle p; OpSettle (List.length (loadsInFlight s)) p] s
          = toggleMusic p s) as Hrun.
  { intros L. cbn [run fold_left step]. rewrite L.
    assert (loadsInFlight (toggleMusic_start p s) = loadsInFlight s ++ [getMatchingTrack (currentBPM s)]) as _ by
      (unfold toggleMusic_start, loadAndPlayAudio_start; rewrite Hp;
       destruct (withoutAudio_begin p (set_isPlaying true s)) as [_ B];
       cbn [loadsInFlight set_loadsInFlight]; rewrite B; reflexivity).
    apply toggleMusic_settles. }
  split; [| split; [| split; [| split; [| split; [| exact Hrun]]]]];
    clear Hrun;
    destruct s as [? ? ? ? ? ? ? ? ? el ctx src gain ? ? ? ?];
    cbn in Hp; subst;
    unfold bufferedStart, activeEngines, sourceActive, elementActive,
      elementPlays, currentTrack, toggleMusic in *;
    unfold_playback; cbn in *;
    destruct ctx, gain, (contextAvailable p), (decodeSucceeds p); cbn;
    destruct src, el, (elementOutcome p); cbn in *;
    intros; try discriminate; try reflexivity;
    try (rewrite He; reflexivity).
Qed.

Lemma toggle_start_engine_count_witness :
  let p := mkPlatform true false PlayStarts in
  let s' := toggleMusic p initialState in
  sourceActive s' = bufferedStart p initialState
  /\ elementActive s'
     = negb (bufferedStart p initialState) && elementPlays (elementOutcome p)
  /\ activeEngines s'
     = (if bufferedStart p initialState || elementPlays (elementOutcome p)
        then 1 else 0)%nat
  /\ (bufferedStart p initialState = true ->
      option_map srcBuffer (audioSource s')
      = Some (audioFile (currentTrack s')))
  /\ (bufferedStart p initialState = false ->
      elementPlays (elementOutcome p) = true ->
      option_map elSrc (currentAudio s')
      = Some (audioFile (currentTrack s')))
  /\ (isLoading initialState = false ->
      run [OpToggle p;
           OpSettle (List.length (loadsInFlight initialState)) p]
        initialState = s').
Proof.
  exact (toggle_start_engine_count (mkPlatform true false PlayStarts)
           initialState eq_refl eq_refl).
Defined.

(** X12: from a stopped state with no engine referenced, play, its load
    settling, then pause gives back the state before, whatever the engines
    did in between; only a newly created audio context stays. *)
Theorem toggle_on_off_restores p1 p2 s :
  isPlaying s = false -> isLoading s = false ->
  audioSource s = None -> currentAudio s = None ->
  toggleMusic p2 (toggleMusic p1 s)
  = (if audioContext s && gainNode s then s
     else initializeAudioContext p1 s)
  /\ run [OpToggle p1; OpSettle (List.length (loadsInFlight s)) p1;
          OpToggle p2] s
     = toggleMusic p2 (toggleMusic p1 s).
Proof.
  intros Hp Hl Hsrc Hel.
  assert (isPlaying (toggleMusic p1 s) = true
          /\ isLoading (toggleMusic p1 s) = false) as [On Off].
  { unfold toggleMusic. rewrite Hp.
    match goal with
    | |- context [loadAndPlayAudio ?t p1 ?s1] =>
        destruct (loadAndPlayAudio_frame t p1 s1)
          as (_ & _ & F & _ & _ & L & _)
    end.
    rewrite F, L. split; reflexivity. }
  split.
  - unfold toggleMusic at 1. rewrite On.
    unfold toggleMusic. rewrite Hp.
    destruct s as [? ? ? ? ? ? ? ? ? el ctx src gain ? ? ? ?].
    cbn in Hp, Hsrc, Hel, Hl. subst.
    unfold_playback. cbn.
    destruct ctx, gain, (contextAvailable p1), (decodeSucceeds p1),
      (elementOutcome p1); reflexivity.
  - cbn [run fold_left step]. rewrite Hl.
    rewrite toggleMusic_settles, Off.
    generalize dependent (toggleMusic p1 s). intros s1 On _.
    unfold toggleMusic_start, toggleMusic. rewrite On. reflexivity.
Qed.

Lemma toggle_on_off_restores_witness :
  let p1 := mkPlatform true false PlayRejected in
  let p2 := mkPlatform true true PlayStarts in
  toggleMusic p2 (toggleMusic p1 initialState)
  = (if audioContext initialState && gainNode initialState then initialState
     else initializeAudioContext p1 initialState)
  /\ run [OpToggle p1;
          OpSettle (List.length (loadsInFlight initialState)) p1;
          OpToggle p2] initialState
     = toggleMusic p2 (toggleMusic p1 initialState).
Proof.
  exact (toggle_on_off_restores (mkPlatform true false PlayRejected)
           (mkPlatform true true PlayStarts) initialState
           eq_refl eq_refl eq_refl eq_refl).
Defined.



(** ** The earlier revision *)

Lemma earlier_detectSteps_counter magnitude now nowC s :
  let accepted :=
    gt magnitude threshold && (300 <? now - Earlier.lastStepTime s)%Z in
  Earlier.steps (Earlier.detectSteps magnitude now nowC s)
  = (if accepted then Earlier.steps s + 1 else Earlier.steps s)%Z
  /\ Earlier.lastStepTime (Earlier.detectSteps magnitude now nowC s)
     = (if accepted then now else Earlier.lastStepTime s)
  /\ Earlier.isPlaying (Earlier.detectSteps magnitude now nowC s)
     = Earlier.isPlaying s.
Proof.
  unfold Earlier.detectSteps, Earlier.calculateSpeed.
  destruct (gt magnitude threshold); cbn [andb]; [| tauto].
  destruct (300 <? now - Earlier.lastStepTime s)%Z; [| tauto].
  cbn. destruct (1 <? Earlier.steps s + 1)%Z; cbn; tauto.
Qed.

Lemma earlierAcceptedSteps_spaced samples :
  forall s, spaced (Earlier.lastStepTime s) (earlierAcceptedSteps samples s).
Proof.
  induction samples as [|[[magnitude now] nowC] rest IH]; intros s.
  - exact I.
  - cbn [earlierAcceptedSteps].
    specialize (IH (Earlier.detectSteps magnitude now nowC s)).
    destruct (earlier_detectSteps_counter magnitude now nowC s)
      as (Hs & Hl & _).
    cbn zeta in Hs, Hl. rewrite Hs, Hl in *.
    destruct (gt magnitude threshold); cbn [andb] in *;
      [| rewrite Z.ltb_irrefl; exact IH].
    destruct (300 <? now - Earlier.lastStepTime s)%Z eqn:R;
      [| rewrite Z.ltb_irrefl; exact IH].
    replace (Earlier.steps s <? Earlier.steps s + 1)%Z with true
      by (symmetry; lia).
    cbn [app]. split; [lia | exact IH].
Qed.

(** X21: the earlier revision keeps the refractory period too: any two steps it
    accepts are more than 300 ms apart.  Its detector never touches
    [isPlaying], and its play button simply flips it, so two presses
    cancel. *)
Theorem earlier_steps_refractory :
  forall (samples : list (float * Z * Z)) (s : Earlier.State),
    ForallOrdPairs (fun t1 t2 => 300 < t2 - t1)%Z
      (earlierAcceptedSteps samples s)
    /\ Forall (fun t => 300 < t - Earlier.lastStepTime s)%Z
         (earlierAcceptedSteps samples s)
    /\ (forall magnitude now nowC,
           Earlier.isPlaying (Earlier.detectSteps magnitude now nowC s)
           = Earlier.isPlaying s)
    /\ Earlier.toggleMusic (Earlier.toggleMusic s) = s.
Proof.
  intros samples s.
  destruct (spaced_pairs _ _ (earlierAcceptedSteps_spaced samples s))
    as [Hall Hp].
  repeat split; auto.
  - intros. apply earlier_detectSteps_counter.
  - destruct s as [? ? playing ? ?]. unfold Earlier.toggleMusic. cbn.
    rewrite negb_involutive. reflexivity.
Qed.

(** ** The BPM clamp *)

Lemma leb_refl x : x <> nan -> (x <=? x) = true.
Proof.
  intros Hx. rewrite leb_compare.
  pose proof (compare_swap x x) as S.
  destruct (x ?= x) eqn:C; try reflexivity; try discriminate S.
  destruct (compare_notcomparable _ _ C); contradiction.
Qed.

(** A clamped number lies between the bounds unless it is NaN. *)
Lemma clamp_bounds x lo hi :
  x <> nan -> lo <> nan -> hi <> nan -> (lo <=? hi) = true ->
  (lo <=? clamp x lo hi) = true /\ (clamp x lo hi <=? hi) = true.
Proof.
  intros Hx Hl Hh Hlh. unfold clamp.
  destruct (x <? lo) eqn:A.
  - split; [apply leb_refl; exact Hl | exact Hlh].
  - destruct (hi <? x) eqn:B.
    + split; [exact Hlh | apply leb_refl; exact Hh].
    + split; apply not_ltb_leb; auto.
Qed.

Lemma newBPM_of_clamp r : newBPM_of r = clamp (r * 60) 60 180.
Proof.
  unfold newBPM_of, clamp. generalize (r * 60). intros x.
  unfold Math_max.
  rewrite !ltb_compare, (compare_swap 60 x).
  destruct (60 ?= x) eqn:C1; cbn [swap_comparison].
  - apply (compare_eq_finite 60 x false 8444249301319680 (-47)) in C1;
      [subst x; vm_compute; reflexivity | vm_compute; reflexivity].
  - unfold Math_min. destruct (180 ?= x) eqn:C2.
    + apply (compare_eq_finite 180 x false 6333186975989760 (-45)) in C2;
        [subst x; vm_compute; reflexivity | vm_compute; reflexivity].
    + reflexivity.
    + reflexivity.
    + destruct (compare_notcomparable _ _ C2) as [E | E];
        [vm_compute in E; discriminate
        | subst x; vm_compute in C1; discriminate].
  - vm_compute (get_sign 60). vm_compute (Math_min 180 60).
    destruct (180 ?= x); reflexivity.
  - destruct (compare_notcomparable _ _ C1) as [E | E];
      [vm_compute in E; discriminate | subst x; vm_compute; reflexivity].
Qed.

(** X18: [Math.min(180, Math.max(60, x))] is clamp(x, 60, 180) and
    [Math.max(0.5, Math.min(2.0, x))] is clamp(x, 0.5, 2.0) for every
    number: the results lie in [60, 180] and [0.5, 2.0], and are NaN only
    for NaN. *)
Theorem clamps_stay_in_range :
  forall x : float,
    newBPM_of x = clamp (x * 60) 60 180
    /\ (x * 60 <> nan ->
        (60 <=? newBPM_of x) = true /\ (newBPM_of x <=? 180) = true)
    /\ (x <> nan ->
        (0.5 <=? clampRate x) = true /\ (clampRate x <=? 2) = true)
    /\ clampRate nan = nan /\ Math_min 180 (Math_max 60 nan) = nan.
Proof.
  intros x.
  assert (forall c : float, (c =? c) = true -> c <> nan) as NN
      by (intros c Hc ->; vm_compute in Hc; discriminate).
  repeat split; try (vm_compute; reflexivity).
  - apply newBPM_of_clamp.
  - rewrite newBPM_of_clamp.
    apply clamp_bounds; auto; apply NN; reflexivity.
  - rewrite newBPM_of_clamp.
    apply clamp_bounds; auto; apply NN; reflexivity.
  - rewrite clampRate_clamp.
    apply clamp_bounds; auto; apply NN; reflexivity.
  - rewrite clampRate_clamp.
    apply clamp_bounds; auto; apply NN; reflexivity.
Qed.

(** ** What a step does to the BPM *)

Lemma prompt_clock_table :
  forallb (fun n => PrimFloat.Leibniz.eqb
                      (newBPM_of (1 / (ofZ (Z.of_nat n) / 1000))) 180)
          (seq 0 334) = true.
Proof. vm_compute. reflexivity. Qed.

Lemma prompt_clock_bpm d :
  (0 <= d <= 333)%Z -> newBPM_of (1 / (ofZ d / 1000)) = 180.
Proof.
  intros Hd. pose proof prompt_clock_table as T.
  rewrite forallb_forall in T.
  specialize (T (Z.to_nat d)). rewrite Z2Nat.id in T by lia.
  apply FloatAxioms.Leibniz.eqb_spec. apply T. apply in_seq. lia.
Qed.

Lemma onCadenceChanged_currentBPM newBPM p s :
  currentBPM (onCadenceChanged newBPM p s)
  = if gt (Math_abs (newBPM - currentBPM s)) 2
    then Math_round newBPM else currentBPM s.
Proof.
  unfold onCadenceChanged.
  destruct (gt (Math_abs (newBPM - currentBPM s)) 2); [| reflexivity].
  match goal with
  | |- context [loadAndPlayAudio ?t p ?s1] =>
      destruct (loadAndPlayAudio_frame t p s1) as (_ & _ & _ & L & _)
  end.
  match goal with
  | |- context [adjustPlaybackSpeed ?b ?s1] =>
      destruct (adjustPlaybackSpeed_frame b s1) as (_ & _ & _ & A & _)
  end.
  cbn zeta in *.
  repeat match goal with
         | |- context [if ?b then _ else _] => destruct b
         end; rewrite ?L, ?A; reflexivity.
Qed.

(** X19: an accepted step after the first whose two clock readings are at most
    333 ms apart aims at 180 BPM, however long ago the previous step was:
    [currentBPM] becomes 180 unless it already is within 2 of it.  One
    millisecond more and the target is below 180. *)
Theorem prompt_step_sets_180 magnitude now nowC p s :
  gt magnitude threshold = true ->
  (300 <? now - lastStepTime s)%Z = true ->
  (0 < steps s)%Z ->
  (0 <= nowC - now <= 333)%Z ->
  currentBPM (detectSteps magnitude now nowC p s)
  = (if gt (Math_abs (180 - currentBPM s)) 2 then 180 else currentBPM s)
  /\ (newBPM_of (1 / (ofZ 334 / 1000)) <? 180) = true.
Proof.
  intros Hm Hr Hs Hd. split; [| vm_compute; reflexivity].
  unfold detectSteps. rewrite Hm, Hr. unfold calculateSpeed.
  change (steps (set_lastStepTime now (set_steps (steps s + 1)%Z s)))
    with (steps s + 1)%Z.
  replace (1 <? steps s + 1)%Z with true by (symmetry; lia).
  rewrite onCadenceChanged_currentBPM.
  unfold stepRate, timeElapsed.
  change (lastStepTime (set_lastStepTime now (set_steps (steps s + 1)%Z s)))
    with now.
  rewrite (prompt_clock_bpm _ Hd).
  replace (Math_round 180) with 180 by (vm_compute; reflexivity).
  reflexivity.
Qed.

Lemma prompt_step_sets_180_witness :
  let p := mkPlatform true true PlayStarts in
  let s := detectSteps 11 1000000 1000000 p initialState in
  currentBPM (detectSteps 11 1002000 1002001 p s)
  = (if gt (Math_abs (180 - currentBPM s)) 2 then 180 else currentBPM s)
  /\ (newBPM_of (1 / (ofZ 334 / 1000)) <? 180) = true.
Proof.
  apply (prompt_step_sets_180 11 1002000 1002001
           (mkPlatform true true PlayStarts)
           (detectSteps 11 1000000 1000000
              (mkPlatform true true PlayStarts) initialState)).
  - reflexivity.
  - reflexivity.
  - reflexivity.
  - split; intros H; discriminate H.
Defined.

(** ** The BPM of the demo generator *)




(** ** What a retune and a switch do to the engines *)

(** X14: a retune writes one playback rate, clamp(bpm / originalBPM, 0.5,
    2.0) for the track matching the BPM, and nothing else: it never starts
    or stops anything and never changes a file.  The rate goes to the
    buffered source whenever one is referenced and the context exists,
    even if that source has been stopped, and the streaming element then
    keeps its rate; otherwise it goes to the streaming element; with
    neither, nothing changes. *)
Theorem retune_writes_one_rate :
  forall (bpm : float) (s : State),
    let s' := adjustPlaybackSpeed bpm s in
    let rate := clamp (bpm / originalBPM (getMatchingTrack bpm)) 0.5 2 in
    sourceActive s' = sourceActive s
    /\ elementActive s' = elementActive s
    /\ option_map srcBuffer (audioSource s')
       = option_map srcBuffer (audioSource s)
    /\ option_map elSrc (currentAudio s') = option_map elSrc (currentAudio s)
    /\ isPlaying s' = isPlaying s /\ currentBPM s' = currentBPM s
    /\ (forall n,
           audioSource s = Some n -> audioContext s = true ->
           audioSource s'
           = Some (mkSource (srcBuffer n) (srcLoop n) rate (srcPlaying n))
           /\ currentAudio s' = currentAudio s)
    /\ (forall e,
           audioSource s = None \/ audioContext s = false ->
           currentAudio s = Some e ->
           currentAudio s'
           = Some (mkElement (elSrc e) (elLoop e) (elVolume e) rate
                     (elPaused e) (elCurrentTime e))
           /\ audioSource s' = audioSource s)
    /\ (audioSource s = None \/ audioContext s = false ->
        currentAudio s = None -> s' = s).
Proof.
  intros bpm s. cbn zeta. rewrite <- clampRate_clamp.
  destruct s as [? ? ? ? ? ? ? ? ? el ctx src gain ? ? ? ?].
  unfold sourceActive, elementActive. unfold_playback. cbn.
  destruct src, ctx, el; cbn; repeat split; intros;
    repeat match goal with
           | H : _ \/ _ |- _ => destruct H
           end;
    try discriminate; try congruence.
Qed.

(** X15: a load that ends with the buffered source while the streaming element
    is playing leaves both engines playing: the load stops only the old
    buffered source. *)
Theorem switch_during_fallback_plays_both track p s :
  elementActive s = true -> bufferedStart p s = true ->
  activeEngines (loadAndPlayAudio track p s) = 2%nat
  /\ currentAudio (loadAndPlayAudio track p s) = currentAudio s.
Proof.
  intros He Hb.
  destruct s as [? ? ? ? ? ? ? ? ? el ctx src gain ? ? ? ?].
  unfold bufferedStart, activeEngines, sourceActive, elementActive in *.
  unfold_playback. cbn in *.
  destruct el as [e|]; [| discriminate].
  destruct ctx, gain, (contextAvailable p), (decodeSucceeds p), src;
    cbn in *; try discriminate; rewrite He; split; reflexivity.
Qed.

Lemma switch_during_fallback_plays_both_witness :
  let fallback := mkPlatform true false PlayStarts in
  let buffered := mkPlatform true true PlayStarts in
  let s := toggleMusic fallback initialState in
  activeEngines (loadAndPlayAudio (getMatchingTrack 180) buffered s) = 2%nat
  /\ currentAudio (loadAndPlayAudio (getMatchingTrack 180) buffered s)
     = currentAudio s.
Proof.
  exact (switch_during_fallback_plays_both (getMatchingTrack 180)
           (mkPlatform true true PlayStarts)
           (toggleMusic (mkPlatform true false PlayStarts) initialState)
           eq_refl eq_refl).
Defined.

(** X16: neither half of a load reads or writes [isPlaying]: a load that
    settles after playback was switched off starts its engine all the
    same. *)
Theorem load_ignores_isPlaying :
  forall (b : bool) (track : MusicTrack) (p : Platform) (s : State),
    loadAndPlayAudio_begin p (set_isPlaying b s)
    = set_isPlaying b (loadAndPlayAudio_begin p s)
    /\ loadAndPlayAudio_settle track p (set_isPlaying b s)
       = set_isPlaying b (loadAndPlayAudio_settle track p s)
    /\ loadAndPlayAudio track p (set_isPlaying b s)
       = set_isPlaying b (loadAndPlayAudio track p s)
    /\ (audioContext s && decodeSucceeds p = true ->
        let late := loadAndPlayAudio_settle track p (set_isPlaying false s) in
        sourceActive late = true /\ isPlaying late = false).
Proof.
  intros b track p s.
  destruct s as [? ? ? ? ? ? ? ? ? el ctx src gain ? ? ? ?].
  unfold sourceActive. unfold_playback. cbn.
  destruct ctx, gain, (contextAvailable p), (decodeSucceeds p), src, el,
    (elementOutcome p); cbn; repeat split; discriminate.
Qed.

(** ** Real steps and the demo timeout *)

Lemma prompt_clock_speed_table :
  forallb (fun n => negb (1 / (ofZ (Z.of_nat n) / 1000) * stepLength =? 0))
          (seq 0 334) = true.
Proof. vm_compute. reflexivity. Qed.

(** X7: a second accepted step whose two clock readings are at most 333 ms
    apart sets a speed other than 0, so the timeout that follows does not
    switch demo mode on. *)
Theorem second_step_prevents_demo magnitude now nowC p s :
  gt magnitude threshold = true ->
  (300 <? now - lastStepTime s)%Z = true ->
  (0 < steps s)%Z ->
  (0 <= nowC - now <= 333)%Z ->
  (speed (detectSteps magnitude now nowC p s) =? 0) = false
  /\ isDemoMode (demoTimeoutFires (detectSteps magnitude now nowC p s))
     = isDemoMode s.
Proof.
  intros Hm Hr Hs Hd.
  assert ((speed (detectSteps magnitude now nowC p s) =? 0) = false) as V.
  { rewrite detectSteps_speed by (auto; apply Z.ltb_lt; exact Hs).
    pose proof prompt_clock_speed_table as T.
    rewrite forallb_forall in T.
    specialize (T (Z.to_nat (nowC - now))).
    rewrite Z2Nat.id in T by lia.
    apply negb_true_iff. apply T. apply in_seq. lia. }
  split; [exact V |].
  assert (isDemoMode (detectSteps magnitude now nowC p s) = isDemoMode s)
    as D.
  { unfold detectSteps. rewrite Hm, Hr.
    match goal with
    | |- context [calculateSpeed nowC p ?s1] =>
        destruct (calculateSpeed_frame nowC p s1) as (_ & _ & _ & _ & F & _)
    end.
    exact F. }
  rewrite <- D. unfold demoTimeoutFires.
  destruct (demoTimeout (detectSteps magnitude now nowC p s));
    [| reflexivity].
  cbn [isDemoMode speed set_demoTimeout].
  change (speed (set_demoTimeout false (detectSteps magnitude now nowC p s)))
    with (speed (detectSteps magnitude now nowC p s)).
  rewrite V, andb_false_r. reflexivity.
Qed.

Lemma second_step_prevents_demo_witness :
  let p := mkPlatform true true PlayStarts in
  let s := detectSteps 11 1000000 1000000 p
             (step (OpRequestPermission Granted) initialState) in
  (speed (detectSteps 11 1000600 1000600 p s) =? 0) = false
  /\ isDemoMode (demoTimeoutFires (detectSteps 11 1000600 1000600 p s))
     = isDemoMode s.
Proof.
  apply (second_step_prevents_demo 11 1000600 1000600
           (mkPlatform true true PlayStarts)
           (detectSteps 11 1000000 1000000
              (mkPlatform true true PlayStarts)
              (step (OpRequestPermission Granted) initialState))).
  - reflexivity.
  - reflexivity.
  - reflexivity.
  - split; intros H; discriminate H.
Defined.
